(** * 3D Furniture Viewer: model factory, scene manager and gesture controller

    A shallow embedding of [App.tsx].  A JavaScript [number] is an IEEE 754
    binary64 value, so it is embedded as Rocq's primitive [float], whose
    operations round exactly as the JavaScript ones do.  The React refs of
    the component are the fields of one record, [World]; the objects that a
    ref and the scene graph both point to live in a store indexed by the
    identity the object got when it was allocated with [new]. *)

Set Warnings "-inexact-float".
From Stdlib Require Import Floats ZArith Bool Lia List String.
From Stdlib Require Import Ascii NArith.
From stdpp Require Import base option gmap.
Import ListNotations.
Local Open Scope float_scope.

(* ================================================================== *)
(** ** JavaScript numbers *)
(* ================================================================== *)

Module JS.

Definition number := float.

Definition isNaN (x : number) : bool :=
  match classify x with NaN => true | _ => false end.

Definition isNegZero (x : number) : bool :=
  match classify x with NZero => true | _ => false end.

(** [Math.max] and [Math.min] of two arguments: NaN is contagious and
    [+0] counts as larger than [-0]. *)
Definition Math_max (a b : number) : number :=
  if isNaN a || isNaN b then nan
  else if a <? b then b
  else if b <? a then a
  else if isNegZero a then b else a.

Definition Math_min (a b : number) : number :=
  if isNaN a || isNaN b then nan
  else if a <? b then a
  else if b <? a then b
  else if isNegZero b then b else a.

(** [Math.PI] *)
Definition Math_PI : number := 0x1.921fb54442d18p+1.

End JS.

Abbreviation number := JS.number.

(* ================================================================== *)
(** ** Data model *)
(* ================================================================== *)

Inductive FurnitureType := chair | table | lamp.

Record FurnitureItem := mkFurnitureItem {
  item_id : Z;
  item_name : string;
  item_type : FurnitureType
}.

Record ColorOption := mkColorOption {
  color_name : string;
  color_value : Z
}.

Record Position := mkPosition { pos_x : number; pos_y : number }.

Definition FURNITURE_ITEMS : list FurnitureItem :=
  [ mkFurnitureItem 1 "Modern Chair" chair;
    mkFurnitureItem 2 "Coffee Table" table;
    mkFurnitureItem 3 "Floor Lamp" lamp ].

Definition COLOR_OPTIONS : list ColorOption :=
  [ mkColorOption "White" 0xffffff;
    mkColorOption "Black" 0x000000;
    mkColorOption "Natural Wood" 0xd2b48c;
    mkColorOption "Blue" 0x4169e1;
    mkColorOption "Red" 0xb22222 ].

(** Every object made with [new] gets a fresh identity; two references are
    to the same instance exactly when the identities agree. *)
Abbreviation ObjId := nat.

(* ------------------------------------------------------------------ *)
(** *** The rendering engine's objects (the part of three.js the app uses) *)

Record Vector3 := mkVector3 { v_x : number; v_y : number; v_z : number }.
Record Euler := mkEuler { e_x : number; e_y : number; e_z : number }.

Inductive Geometry :=
| BoxGeometry (width height depth : number)
| CylinderGeometry (radiusTop radiusBottom height : number)
                   (radialSegments : option Z)
| ConeGeometry (radius height : number) (radialSegments heightSegments : Z)
               (openEnded : bool)
| SphereGeometry (radius : number) (widthSegments heightSegments : Z).

Inductive MaterialKind := MeshPhongMaterial | MeshBasicMaterial.

Record Material := mkMaterial {
  mat_id : ObjId;
  mat_kind : MaterialKind;
  mat_color : Z;
  mat_emissive : option Z
}.

Record Mesh := mkMesh {
  mesh_geometry : Geometry;
  mesh_material : Material;
  mesh_position : Vector3;
  mesh_rotation : Euler
}.

(** A [THREE.Group]: the children in the order they were added. *)
Record Object3D := mkObject3D {
  obj_id : ObjId;
  obj_children : list Mesh;
  obj_position : Vector3;
  obj_rotation : Euler
}.

Definition origin : Vector3 := mkVector3 0 0 0.
Definition no_rotation : Euler := mkEuler 0 0 0.

Definition new_Mesh (g : Geometry) (m : Material) : Mesh :=
  mkMesh g m origin no_rotation.

Definition new_Group (id : ObjId) : Object3D :=
  mkObject3D id [] origin no_rotation.

Definition mesh_set_position (p : Vector3) (m : Mesh) : Mesh :=
  mkMesh (mesh_geometry m) (mesh_material m) p (mesh_rotation m).

Definition mesh_set_rotation (r : Euler) (m : Mesh) : Mesh :=
  mkMesh (mesh_geometry m) (mesh_material m) (mesh_position m) r.

Definition with_x (x : number) (p : Vector3) := mkVector3 x (v_y p) (v_z p).
Definition with_y (y : number) (p : Vector3) := mkVector3 (v_x p) y (v_z p).
Definition with_z (z : number) (p : Vector3) := mkVector3 (v_x p) (v_y p) z.

Definition rot_with_x (x : number) (r : Euler) := mkEuler x (e_y r) (e_z r).
Definition rot_with_y (y : number) (r : Euler) := mkEuler (e_x r) y (e_z r).

(** [group.add(mesh)] *)
Definition group_add (m : Mesh) (g : Object3D) : Object3D :=
  mkObject3D (obj_id g) (obj_children g ++ [m]) (obj_position g) (obj_rotation g).

Definition obj_set_position (p : Vector3) (o : Object3D) : Object3D :=
  mkObject3D (obj_id o) (obj_children o) p (obj_rotation o).

Definition obj_set_rotation (r : Euler) (o : Object3D) : Object3D :=
  mkObject3D (obj_id o) (obj_children o) (obj_position o) r.

(* ================================================================== *)
(** ** Model factory *)
(* ================================================================== *)

(** [for (let x = init; x <= hi; x += step) body]: the loop variable is a
    double, so whether the loop stops is a fact about rounding.  [fuel]
    bounds the number of times the condition is tested; [None] is a loop
    that has not stopped within it. *)
Fixpoint for_le {A : Type} (fuel : nat) (x hi step : number)
    (body : number -> A -> option A) (acc : A) : option A :=
  match fuel with
  | O => None
  | S k =>
      if x <=? hi then
        match body x acc with
        | Some acc' => for_le k (x + step) hi step body acc'
        | None => None
        end
      else Some acc
  end.

Definition createFurnitureModel (fuel : nat) (type : FurnitureType)
    (selectedColor : ColorOption) (next : ObjId) : option (Object3D * ObjId) :=
  match type with
  | chair =>
      let group := new_Group next in
      (* Seat *)
      let geometry := BoxGeometry 1 0.1 1 in
      let material :=
        mkMaterial (S next) MeshPhongMaterial (color_value selectedColor) None in
      let seat := new_Mesh geometry material in
      let seat := mesh_set_position (with_y 0.5 (mesh_position seat)) seat in
      let group := group_add seat group in
      (* Backrest *)
      let geometry := BoxGeometry 1 1 0.1 in
      let backrest := new_Mesh geometry material in
      let backrest := mesh_set_position (with_y 1 (mesh_position backrest)) backrest in
      let backrest := mesh_set_position (with_z (-0.45) (mesh_position backrest)) backrest in
      let group := group_add backrest group in
      (* Legs *)
      let geometry := CylinderGeometry 0.05 0.05 0.5 None in
      match
        for_le fuel (-0.4) 0.4 0.8 (fun x group =>
          for_le fuel (-0.4) 0.4 0.8 (fun z group =>
            let leg := new_Mesh geometry material in
            let leg := mesh_set_position (mkVector3 x 0.25 z) leg in
            Some (group_add leg group)) group) group
      with
      | Some group => Some (group, S (S next))
      | None => None
      end
  | table =>
      let tableGroup := new_Group next in
      (* Table top *)
      let geometry := BoxGeometry 2 0.1 1.5 in
      let material :=
        mkMaterial (S next) MeshPhongMaterial (color_value selectedColor) None in
      let tableTop := new_Mesh geometry material in
      let tableTop := mesh_set_position (with_y 0.8 (mesh_position tableTop)) tableTop in
      let tableGroup := group_add tableTop tableGroup in
      (* Table legs *)
      let geometry := BoxGeometry 0.1 0.8 0.1 in
      match
        for_le fuel (-0.9) 0.9 1.8 (fun x tableGroup =>
          for_le fuel (-0.65) 0.65 1.3 (fun z tableGroup =>
            let tableLeg := new_Mesh geometry material in
            let tableLeg := mesh_set_position (mkVector3 x 0.4 z) tableLeg in
            Some (group_add tableLeg tableGroup)) tableGroup) tableGroup
      with
      | Some tableGroup => Some (tableGroup, S (S next))
      | None => None
      end
  | lamp =>
      let lampGroup := new_Group next in
      (* Base *)
      let geometry := CylinderGeometry 0.3 0.4 0.1 (Some 32%Z) in
      let material :=
        mkMaterial (S next) MeshPhongMaterial (color_value selectedColor) None in
      let base := new_Mesh geometry material in
      let base := mesh_set_position (with_y 0.05 (mesh_position base)) base in
      let lampGroup := group_add base lampGroup in
      (* Pole *)
      let geometry := CylinderGeometry 0.03 0.03 1.5 (Some 32%Z) in
      let pole := new_Mesh geometry material in
      let pole := mesh_set_position (with_y 0.8 (mesh_position pole)) pole in
      let lampGroup := group_add pole lampGroup in
      (* Shade *)
      let geometry := ConeGeometry 0.3 0.5 32 1 true in
      let shade := new_Mesh geometry material in
      let shade := mesh_set_position (with_y 1.6 (mesh_position shade)) shade in
      let shade := mesh_set_rotation (rot_with_x JS.Math_PI (mesh_rotation shade)) shade in
      let lampGroup := group_add shade lampGroup in
      (* Light bulb (emissive material to simulate light) *)
      let geometry := SphereGeometry 0.1 16 16 in
      let lightMaterial :=
        mkMaterial (S (S next)) MeshBasicMaterial 0xffffcc (Some 0xffffcc%Z) in
      let bulb := new_Mesh geometry lightMaterial in
      let bulb := mesh_set_position (with_y 1.4 (mesh_position bulb)) bulb in
      let lampGroup := group_add bulb lampGroup in
      Some (lampGroup, S (S (S next)))
  end.

(* ================================================================== *)
(** ** Scene manager: scene graph, camera, renderer and the component's refs *)
(* ================================================================== *)

(** What the scene holds.  The furniture model is held by reference: the
    same object is reachable through [objectRef]. *)
Inductive SceneNode :=
| AmbientLight (color : Z) (intensity : number)
| DirectionalLight (color : Z) (intensity : number) (position : Vector3)
                   (castShadow : bool)
| GridHelper (size divisions : number) (color1 color2 : Z)
| ModelNode (id : ObjId).

Record Scene := mkScene { scene_children : list SceneNode }.

Record PerspectiveCamera := mkCamera {
  cam_fov : number;
  cam_aspect : number;
  cam_near : number;
  cam_far : number;
  cam_position : Vector3
}.

Record Renderer := mkRenderer {
  renderer_width : number;
  renderer_height : number;
  renderer_clearColor : Z
}.

Record ExpoWebGLRenderingContext := mkGL {
  drawingBufferWidth : number;
  drawingBufferHeight : number
}.

(** The calls the component makes to its collaborators, in the order made. *)
Inductive EngineCall :=
| SceneRemove (id : ObjId)
| SceneAdd (n : SceneNode)
| RequestAnimationFrame (handle : nat)
| RendererRender (s : Scene) (c : PerspectiveCamera)
| EndFrameEXP.

Record World := mkWorld {
  (* React state *)
  selectedItem : FurnitureItem;
  selectedColor : ColorOption;
  isLoading : bool;
  (* References for scene objects *)
  sceneRef : option Scene;
  cameraRef : option PerspectiveCamera;
  rendererRef : option Renderer;
  objectRef : option ObjId;
  animationRef : option nat;
  initialCameraZRef : number;
  (* Gesture state *)
  rotationRef : Position;
  lastPositionRef : Position;
  scaleRef : number;
  (* The store of allocated model objects and the allocation counters *)
  heap : gmap nat Object3D;
  nextId : ObjId;
  nextHandle : nat;
  (* Calls made so far *)
  calls : list EngineCall
}.

Definition set_selectedItem (v : FurnitureItem) (w : World) : World :=
  mkWorld v (selectedColor w) (isLoading w) (sceneRef w) (cameraRef w)
    (rendererRef w) (objectRef w) (animationRef w) (initialCameraZRef w)
    (rotationRef w) (lastPositionRef w) (scaleRef w) (heap w) (nextId w)
    (nextHandle w) (calls w).

Definition set_selectedColor (v : ColorOption) (w : World) : World :=
  mkWorld (selectedItem w) v (isLoading w) (sceneRef w) (cameraRef w)
    (rendererRef w) (objectRef w) (animationRef w) (initialCameraZRef w)
    (rotationRef w) (lastPositionRef w) (scaleRef w) (heap w) (nextId w)
    (nextHandle w) (calls w).

Definition set_isLoading (v : bool) (w : World) : World :=
  mkWorld (selectedItem w) (selectedColor w) v (sceneRef w) (cameraRef w)
    (rendererRef w) (objectRef w) (animationRef w) (initialCameraZRef w)
    (rotationRef w) (lastPositionRef w) (scaleRef w) (heap w) (nextId w)
    (nextHandle w) (calls w).

Definition set_sceneRef (v : option Scene) (w : World) : World :=
  mkWorld (selectedItem w) (selectedColor w) (isLoading w) v (cameraRef w)
    (rendererRef w) (objectRef w) (animationRef w) (initialCameraZRef w)
    (rotationRef w) (lastPositionRef w) (scaleRef w) (heap w) (nextId w)
    (nextHandle w) (calls w).

Definition set_cameraRef (v : option PerspectiveCamera) (w : World) : World :=
  mkWorld (selectedItem w) (selectedColor w) (isLoading w) (sceneRef w) v
    (rendererRef w) (objectRef w) (animationRef w) (initialCameraZRef w)
    (rotationRef w) (lastPositionRef w) (scaleRef w) (heap w) (nextId w)
    (nextHandle w) (calls w).

Definition set_rendererRef (v : option Renderer) (w : World) : World :=
  mkWorld (selectedItem w) (selectedColor w) (isLoading w) (sceneRef w)
    (cameraRef w) v (objectRef w) (animationRef w) (initialCameraZRef w)
    (rotationRef w) (lastPositionRef w) (scaleRef w) (heap w) (nextId w)
    (nextHandle w) (calls w).

Definition set_objectRef (v : option ObjId) (w : World) : World :=
  mkWorld (selectedItem w) (selectedColor w) (isLoading w) (sceneRef w)
    (cameraRef w) (rendererRef w) v (animationRef w) (initialCameraZRef w)
    (rotationRef w) (lastPositionRef w) (scaleRef w) (heap w) (nextId w)
    (nextHandle w) (calls w).

Definition set_animationRef (v : option nat) (w : World) : World :=
  mkWorld (selectedItem w) (selectedColor w) (isLoading w) (sceneRef w)
    (cameraRef w) (rendererRef w) (objectRef w) v (initialCameraZRef w)
    (rotationRef w) (lastPositionRef w) (scaleRef w) (heap w) (nextId w)
    (nextHandle w) (calls w).

Definition set_initialCameraZRef (v : number) (w : World) : World :=
  mkWorld (selectedItem w) (selectedColor w) (isLoading w) (sceneRef w)
    (cameraRef w) (rendererRef w) (objectRef w) (animationRef w) v
    (rotationRef w) (lastPositionRef w) (scaleRef w) (heap w) (nextId w)
    (nextHandle w) (calls w).

Definition set_rotationRef (v : Position) (w : World) : World :=
  mkWorld (selectedItem w) (selectedColor w) (isLoading w) (sceneRef w)
    (cameraRef w) (rendererRef w) (objectRef w) (animationRef w)
    (initialCameraZRef w) v (lastPositionRef w) (scaleRef w) (heap w)
    (nextId w) (nextHandle w) (calls w).

Definition set_lastPositionRef (v : Position) (w : World) : World :=
  mkWorld (selectedItem w) (selectedColor w) (isLoading w) (sceneRef w)
    (cameraRef w) (rendererRef w) (objectRef w) (animationRef w)
    (initialCameraZRef w) (rotationRef w) v (scaleRef w) (heap w)
    (nextId w) (nextHandle w) (calls w).

Definition set_heap (v : gmap nat Object3D) (w : World) : World :=
  mkWorld (selectedItem w) (selectedColor w) (isLoading w) (sceneRef w)
    (cameraRef w) (rendererRef w) (objectRef w) (animationRef w)
    (initialCameraZRef w) (rotationRef w) (lastPositionRef w) (scaleRef w) v
    (nextId w) (nextHandle w) (calls w).

Definition set_nextId (v : ObjId) (w : World) : World :=
  mkWorld (selectedItem w) (selectedColor w) (isLoading w) (sceneRef w)
    (cameraRef w) (rendererRef w) (objectRef w) (animationRef w)
    (initialCameraZRef w) (rotationRef w) (lastPositionRef w) (scaleRef w)
    (heap w) v (nextHandle w) (calls w).

Definition set_nextHandle (v : nat) (w : World) : World :=
  mkWorld (selectedItem w) (selectedColor w) (isLoading w) (sceneRef w)
    (cameraRef w) (rendererRef w) (objectRef w) (animationRef w)
    (initialCameraZRef w) (rotationRef w) (lastPositionRef w) (scaleRef w)
    (heap w) (nextId w) v (calls w).

Definition log (c : EngineCall) (w : World) : World :=
  mkWorld (selectedItem w) (selectedColor w) (isLoading w) (sceneRef w)
    (cameraRef w) (rendererRef w) (objectRef w) (animationRef w)
    (initialCameraZRef w) (rotationRef w) (lastPositionRef w) (scaleRef w)
    (heap w) (nextId w) (nextHandle w) (calls w ++ [c]).

(** The component as first rendered: the [useState] and [useRef] initial
    values. *)
Definition initialWorld : World :=
  mkWorld (mkFurnitureItem 1 "Modern Chair" chair) (mkColorOption "White" 0xffffff)
    true None None None None None 3 (mkPosition 0 0) (mkPosition 0 0) 1
    ∅ 0 1 [].

(* ------------------------------------------------------------------ *)
(** *** Scene graph operations *)

Definition is_model (id : ObjId) (n : SceneNode) : bool :=
  match n with
  | ModelNode j => Nat.eqb id j
  | _ => false
  end.

(** [Object3D.remove]: the first occurrence of the child is spliced out;
    nothing happens when the object is not a child. *)
Fixpoint remove_child (id : ObjId) (l : list SceneNode) : list SceneNode :=
  match l with
  | [] => []
  | n :: l' => if is_model id n then l' else n :: remove_child id l'
  end.

(** The identities of the models attached to a scene. *)
Fixpoint attached_models (l : list SceneNode) : list ObjId :=
  match l with
  | [] => []
  | ModelNode j :: l' => j :: attached_models l'
  | _ :: l' => attached_models l'
  end.

(** [sceneRef.current.remove(obj)] *)
Definition scene_remove (id : ObjId) (w : World) : World :=
  match sceneRef w with
  | Some scene =>
      log (SceneRemove id)
        (set_sceneRef (Some (mkScene (remove_child id (scene_children scene)))) w)
  | None => w
  end.

(** [scene.add(node)] for a node that has no parent yet: it is pushed at
    the end of the children. *)
Definition scene_add (n : SceneNode) (w : World) : World :=
  match sceneRef w with
  | Some scene =>
      log (SceneAdd n)
        (set_sceneRef (Some (mkScene (scene_children scene ++ [n]))) w)
  | None => w
  end.

(** A write through a reference to a model object. *)
Definition update_object (id : ObjId) (f : Object3D -> Object3D) (w : World) : World :=
  set_heap (alter f id (heap w)) w.

(* ------------------------------------------------------------------ *)
(** *** [updateFurnitureModel] *)

(** Lines "Remove existing model if any". *)
Definition removeExisting (w : World) : World :=
  match objectRef w with
  | Some old => scene_remove old w
  | None => w
  end.

(** Lines "Create new model" to "Add to scene". *)
Definition createAndAdd (fuel : nat) (w : World) : option World :=
  match
    createFurnitureModel fuel (item_type (selectedItem w)) (selectedColor w) (nextId w)
  with
  | None => None
  | Some (model, next) =>
      let w := set_nextId next w in
      let w := set_heap (<[obj_id model := model]> (heap w)) w in
      let w := set_objectRef (Some (obj_id model)) w in
      (* Reset position and rotation *)
      let w := update_object (obj_id model) (obj_set_position (mkVector3 0 0 0)) w in
      let w := update_object (obj_id model) (obj_set_rotation (mkEuler 0 0 0)) w in
      (* Add to scene *)
      Some (scene_add (ModelNode (obj_id model)) w)
  end.

Definition updateFurnitureModel (fuel : nat) (w : World) : option World :=
  match sceneRef w with
  | None => Some w
  | Some _ => createAndAdd fuel (removeExisting w)
  end.

(* ------------------------------------------------------------------ *)
(** *** Render loop tick and [onContextCreate] *)

Definition render (w : World) : World :=
  let handle := nextHandle w in
  let w := log (RequestAnimationFrame handle) (set_nextHandle (S handle) w) in
  let w := set_animationRef (Some handle) w in
  let w :=
    match rendererRef w, sceneRef w, cameraRef w with
    | Some _, Some scene, Some camera => log (RendererRender scene camera) w
    | _, _, _ => w
    end in
  log EndFrameEXP w.

Definition onContextCreate (fuel : nat) (gl : ExpoWebGLRenderingContext)
    (w : World) : option World :=
  let w := set_isLoading true w in
  (* Create renderer using the GLView context *)
  let threeRenderer :=
    mkRenderer (drawingBufferWidth gl) (drawingBufferHeight gl) 0xf0f0f0 in
  let w := set_rendererRef (Some threeRenderer) w in
  (* Create scene *)
  let w := set_sceneRef (Some (mkScene [])) w in
  (* Add ambient light *)
  let w := scene_add (AmbientLight 0xffffff 0.5) w in
  (* Add directional light *)
  let w := scene_add (DirectionalLight 0xffffff 0.8 (mkVector3 5 10 7.5) true) w in
  (* Create camera *)
  let camera :=
    mkCamera 75 (drawingBufferWidth gl / drawingBufferHeight gl) 0.1 1000
      (mkVector3 0 0 0) in
  let camera :=
    mkCamera (cam_fov camera) (cam_aspect camera) (cam_near camera) (cam_far camera)
      (with_z 3 (cam_position camera)) in
  let camera :=
    mkCamera (cam_fov camera) (cam_aspect camera) (cam_near camera) (cam_far camera)
      (with_y 1 (cam_position camera)) in
  let w := set_cameraRef (Some camera) w in
  (* Add floor grid for reference *)
  let w := scene_add (GridHelper 10 10 0xcccccc 0xcccccc) w in
  (* Create furniture model *)
  match updateFurnitureModel fuel w with
  | None => None
  | Some w =>
      (* Animation loop *)
      let w := render w in
      Some (set_isLoading false w)
  end.

(* ------------------------------------------------------------------ *)
(** *** Selection state *)

Definition type_eqb (a b : FurnitureType) : bool :=
  match a, b with
  | chair, chair | table, table | lamp, lamp => true
  | _, _ => false
  end.

Definition item_eqb (a b : FurnitureItem) : bool :=
  Z.eqb (item_id a) (item_id b) && String.eqb (item_name a) (item_name b)
  && type_eqb (item_type a) (item_type b).

Definition color_eqb (a b : ColorOption) : bool :=
  String.eqb (color_name a) (color_name b) && Z.eqb (color_value a) (color_value b).

(** [setSelectedItem(item)] followed by the effect that depends on
    [selectedItem, selectedColor]: the effect runs only when the state
    changed. *)
Definition selectItem (fuel : nat) (item : FurnitureItem) (w : World) : option World :=
  if item_eqb item (selectedItem w) then Some w
  else updateFurnitureModel fuel (set_selectedItem item w).

Definition selectColor (fuel : nat) (color : ColorOption) (w : World) : option World :=
  if color_eqb color (selectedColor w) then Some w
  else updateFurnitureModel fuel (set_selectedColor color w).

(* ================================================================== *)
(** ** Transform controller: gesture handlers *)
(* ================================================================== *)

Module panGesture.

Definition onUpdate (translationX translationY : number) (w : World) : World :=
  match objectRef w with
  | None => w
  | Some obj =>
      let deltaX := translationX - pos_x (lastPositionRef w) in
      let deltaY := translationY - pos_y (lastPositionRef w) in
      (* Update rotation based on pan movement *)
      let w :=
        set_rotationRef
          (mkPosition (pos_x (rotationRef w) + deltaY * 0.01)
                      (pos_y (rotationRef w) + deltaX * 0.01)) w in
      (* Apply rotation to the 3D object *)
      let w :=
        update_object obj
          (fun o => obj_set_rotation (rot_with_x (pos_x (rotationRef w)) (obj_rotation o)) o) w in
      let w :=
        update_object obj
          (fun o => obj_set_rotation (rot_with_y (pos_y (rotationRef w)) (obj_rotation o)) o) w in
      set_lastPositionRef (mkPosition translationX translationY) w
  end.

Definition onEnd (w : World) : World :=
  let w :=
    match objectRef w with
    | Some obj =>
        match heap w !! obj with
        | Some o =>
            set_rotationRef
              (mkPosition (e_x (obj_rotation o)) (e_y (obj_rotation o))) w
        | None => w
        end
    | None => w
    end in
  set_lastPositionRef (mkPosition 0 0) w.

End panGesture.

Module pinchGesture.

Definition camera_set_z (z : number) (c : PerspectiveCamera) : PerspectiveCamera :=
  mkCamera (cam_fov c) (cam_aspect c) (cam_near c) (cam_far c)
    (with_z z (cam_position c)).

Definition onStart (w : World) : World :=
  (* Store initial camera position when pinch starts *)
  match cameraRef w with
  | Some camera => set_initialCameraZRef (v_z (cam_position camera)) w
  | None => w
  end.

Definition onUpdate (scale : number) (w : World) : World :=
  match cameraRef w with
  | None => w
  | Some camera =>
      set_cameraRef
        (Some (camera_set_z
                 (JS.Math_max 1.5 (JS.Math_min 5 (initialCameraZRef w / scale)))
                 camera)) w
  end.

Definition onEnd (w : World) : World :=
  (* Store the final camera position for the next gesture *)
  match cameraRef w with
  | Some camera => set_initialCameraZRef (v_z (cam_position camera)) w
  | None => w
  end.

End pinchGesture.

(* ================================================================== *)
(** ** The events the component reacts to *)
(* ================================================================== *)

Inductive Event :=
| ContextCreate (gl : ExpoWebGLRenderingContext)
| AnimationFrame
| SelectItem (item : FurnitureItem)
| SelectColor (color : ColorOption)
| PanUpdate (translationX translationY : number)
| PanEnd
| PinchStart
| PinchUpdate (scale : number)
| PinchEnd.

Definition step (fuel : nat) (e : Event) (w : World) : option World :=
  match e with
  | ContextCreate gl => onContextCreate fuel gl w
  | AnimationFrame => Some (render w)
  | SelectItem item => selectItem fuel item w
  | SelectColor color => selectColor fuel color w
  | PanUpdate tx ty => Some (panGesture.onUpdate tx ty w)
  | PanEnd => Some (panGesture.onEnd w)
  | PinchStart => Some (pinchGesture.onStart w)
  | PinchUpdate scale => Some (pinchGesture.onUpdate scale w)
  | PinchEnd => Some (pinchGesture.onEnd w)
  end.

Fixpoint run (fuel : nat) (es : list Event) (w : World) : option World :=
  match es with
  | [] => Some w
  | e :: es' =>
      match step fuel e w with
      | Some w' => run fuel es' w'
      | None => None
      end
  end.

(** What is on display: the model object [objectRef] points to, and the
    camera distance. *)
Definition currentModel (w : World) : option Object3D :=
  match objectRef w with
  | Some id => heap w !! id
  | None => None
  end.

Definition cameraDistance (w : World) : option number :=
  match cameraRef w with
  | Some c => Some (v_z (cam_position c))
  | None => None
  end.

(** The model's rotation about the x and y axes, as a [Position]. *)
Definition rotationXY (o : Object3D) : Position :=
  mkPosition (e_x (obj_rotation o)) (e_y (obj_rotation o)).

(** The zoom range, [minDistance = 1.5] to [maxDistance = 5]. *)
Definition in_range (d : number) : bool := (1.5 <=? d) && (d <=? 5).

(** The specification's [clamp(x, lo, hi)], written from its words and not
    from the code: [lo] below the range, [hi] above it, [x] itself
    otherwise. *)
Definition spec_clamp (x lo hi : number) : number :=
  if x <? lo then lo else if hi <? x then hi else x.

(** The scale an event carries, if any, is a number: only a pinch update
    carries one, and it must not be NaN. *)
Definition scale_is_number (e : Event) : bool :=
  match e with
  | PinchUpdate scale => negb (JS.isNaN scale)
  | _ => true
  end.

(** The specification's chair, written from its words: a 1 x 0.1 x 1 seat
    at height 0.5, a 1 x 1 x 0.1 backrest at height 1 set back by 0.45, and
    four cylindrical legs (radius 0.05, height 0.5) at height 0.25 on the
    four corners (+-0.4, +-0.4), every part with the one material [mat]. *)
Definition spec_chair_parts (mat : Material) : list Mesh :=
  [ mkMesh (BoxGeometry 1 0.1 1) mat (mkVector3 0 0.5 0) (mkEuler 0 0 0);
    mkMesh (BoxGeometry 1 1 0.1) mat (mkVector3 0 1 (-0.45)) (mkEuler 0 0 0);
    mkMesh (CylinderGeometry 0.05 0.05 0.5 None) mat
      (mkVector3 (-0.4) 0.25 (-0.4)) (mkEuler 0 0 0);
    mkMesh (CylinderGeometry 0.05 0.05 0.5 None) mat
      (mkVector3 (-0.4) 0.25 0.4) (mkEuler 0 0 0);
    mkMesh (CylinderGeometry 0.05 0.05 0.5 None) mat
      (mkVector3 0.4 0.25 (-0.4)) (mkEuler 0 0 0);
    mkMesh (CylinderGeometry 0.05 0.05 0.5 None) mat
      (mkVector3 0.4 0.25 0.4) (mkEuler 0 0 0) ].

(** The material every regular part shares, and the lamp bulb's own. *)
Definition coloredMaterial (color : ColorOption) (next : ObjId) : Material :=
  mkMaterial (S next) MeshPhongMaterial (color_value color) None.

Definition bulbMaterial (next : ObjId) : Material :=
  mkMaterial (S (S next)) MeshBasicMaterial 0xffffcc (Some 0xffffcc%Z).

(* ------------------------------------------------------------------ *)
(** *** Invariants and sample worlds *)

(** The state the transform controller owns: accumulated orientation, last
    pan sample, zoom anchor and camera. *)
Definition controllerState (w : World) :=
  (rotationRef w, lastPositionRef w, initialCameraZRef w, cameraRef w).

(** The zoom invariant: the anchor and, once there is a camera, its
    distance lie in the zoom range. *)
Definition zoom_ok (w : World) : Prop :=
  in_range (initialCameraZRef w) = true /\
  forall d, cameraDistance w = Some d -> in_range d = true.

(** The models attached to the current scene. *)
Definition attachedModels (w : World) : list ObjId :=
  match sceneRef w with
  | Some scene => attached_models (scene_children scene)
  | None => []
  end.

(** The scene holds no model, or exactly the one [objectRef] points to. *)
Definition scene_ok (w : World) : Prop :=
  attachedModels w = [] \/
  exists id, objectRef w = Some id /\ attachedModels w = [id].

(** What a selection change does to a world [w], giving [w']: the
    controller's state (accumulated orientation, last pan sample, zoom
    anchor, camera and so the camera distance) is as before.  With a scene,
    the model on display is the one just built for the selection of [w'],
    the only model attached, at the origin and with rotation (0, 0, 0);
    without a scene there is still no scene and no model. *)
Definition rebuilt_unrotated (fuel : nat) (w w' : World) : Prop :=
  rotationRef w' = rotationRef w /\
  lastPositionRef w' = lastPositionRef w /\
  initialCameraZRef w' = initialCameraZRef w /\
  cameraRef w' = cameraRef w /\
  cameraDistance w' = cameraDistance w /\
  match sceneRef w with
  | Some _ =>
      exists model built next,
        createFurnitureModel fuel (item_type (selectedItem w')) (selectedColor w')
          (nextId w) = Some (built, next) /\
        objectRef w' = Some (obj_id model) /\
        currentModel w' = Some model /\
        attachedModels w' = [obj_id model] /\
        obj_children model = obj_children built /\
        obj_position model = mkVector3 0 0 0 /\
        obj_rotation model = mkEuler 0 0 0
  | None => sceneRef w' = None /\ objectRef w' = None
  end.

Definition cameraAt (z : number) : PerspectiveCamera :=
  mkCamera 75 1 0.1 1000 (mkVector3 0 1 z).

Definition es_zoom : list Event :=
  [ContextCreate (mkGL 400 300); PinchStart; PinchUpdate 2; PinchEnd].

Definition readyWorld : World :=
  Eval vm_compute in
    match run 3 [ContextCreate (mkGL 400 300)] initialWorld with
    | Some w => w
    | None => initialWorld
    end.

Definition turnedWorld : World :=
  Eval vm_compute in
    match run 3 [ContextCreate (mkGL 400 300); PanUpdate 1 0; PanEnd] initialWorld with
    | Some w => w
    | None => initialWorld
    end.

Definition readyChair : Object3D :=
  mkObject3D 0 (spec_chair_parts (coloredMaterial (mkColorOption "White" 0xffffff) 0))
    origin no_rotation.

Definition readyScene : Scene :=
  mkScene [ AmbientLight 0xffffff 0.5;
            DirectionalLight 0xffffff 0.8 (mkVector3 5 10 7.5) true;
            GridHelper 10 10 0xcccccc 0xcccccc;
            ModelNode 0 ].

(* ================================================================== *)
(** ** Unmount clean-up and the rendered view *)
(* ================================================================== *)

(** The call the clean-up effect makes to the host. *)
Inductive HostCall := CancelAnimationFrame (handle : nat).

(** The clean-up returned by the mount effect: the pending frame is
    cancelled when [animationRef.current] is truthy, and a handle of 0 is
    not. *)
Definition cleanup (w : World) : list HostCall :=
  match animationRef w with
  | Some handle => if Nat.eqb handle 0 then [] else [CancelAnimationFrame handle]
  | None => []
  end.

(** [Number.prototype.toString(16)] on an integer: lower-case digits, no
    leading zeros, a minus sign for a negative value. *)
Definition hexDigit (d : N) : ascii :=
  match d with
  | 0 => "0" | 1 => "1" | 2 => "2" | 3 => "3" | 4 => "4" | 5 => "5"
  | 6 => "6" | 7 => "7" | 8 => "8" | 9 => "9" | 10 => "a" | 11 => "b"
  | 12 => "c" | 13 => "d" | 14 => "e" | _ => "f"
  end%N%char.

Fixpoint toHexDigits (fuel : nat) (n : N) (acc : string) : string :=
  match fuel with
  | O => acc
  | S k =>
      if (n =? 0)%N then acc
      else toHexDigits k (n / 16)%N (String (hexDigit (n mod 16)%N) acc)
  end.

Definition toString16 (v : Z) : string :=
  match v with
  | Z0 => "0"
  | Zpos p => toHexDigits (N.size_nat (Npos p)) (Npos p) ""
  | Zneg p => String "-" (toHexDigits (N.size_nat (Npos p)) (Npos p) "")
  end%string.

Fixpoint replicate_char (n : nat) (c : ascii) : string :=
  match n with
  | O => EmptyString
  | S k => String c (replicate_char k c)
  end.

(** [s.padStart(targetLength, c)] for a one-character pad string. *)
Definition padStart (targetLength : nat) (c : ascii) (s : string) : string :=
  (replicate_char (targetLength - String.length s) c ++ s)%string.

(** The style and text of the selection rows and of the info line. *)
Definition colorItem_backgroundColor (color : ColorOption) : string :=
  String "#" (padStart 6 "0" (toString16 (color_value color))).

Definition colorText_color (color : ColorOption) : string :=
  (if String.eqb (color_name color) "White" then "#000" else "#fff")%string.

Definition selectionItem_selected (w : World) (item : FurnitureItem) : bool :=
  Z.eqb (item_id (selectedItem w)) (item_id item).

Definition colorItem_selected (w : World) (color : ColorOption) : bool :=
  String.eqb (color_name (selectedColor w)) (color_name color).

Definition infoText (w : World) : string :=
  ("Selected: " ++ item_name (selectedItem w) ++ " in "
   ++ color_name (selectedColor w))%string.

Definition loadingOverlay_shown (w : World) : bool := isLoading w.

(** Reading a string of hexadecimal digits, to say what a colour string
    denotes. *)
Definition hexValue (c : ascii) : option N :=
  let n := N_of_ascii c in
  if ((48 <=? n) && (n <=? 57))%N then Some (n - 48)%N
  else if ((97 <=? n) && (n <=? 102))%N then Some (n - 87)%N
  else None.

Fixpoint parseHex_from (acc : N) (s : string) : option N :=
  match s with
  | EmptyString => Some acc
  | String c s' =>
      match hexValue c with
      | Some d => parseHex_from (acc * 16 + d)%N s'
      | None => None
      end
  end.

Definition parseColor (s : string) : option N :=
  match s with
  | String "#" digits => parseHex_from 0 digits
  | _ => None
  end.

(* ------------------------------------------------------------------ *)
(** *** What the reachable states look like *)

(** The lights and the grid [onContextCreate] puts in every scene. *)
Definition base_nodes : list SceneNode :=
  [ AmbientLight 0xffffff 0.5;
    DirectionalLight 0xffffff 0.8 (mkVector3 5 10 7.5) true;
    GridHelper 10 10 0xcccccc 0xcccccc ].

(** A mesh without its material. *)
Definition mesh_shape (m : Mesh) : Geometry * Vector3 * Euler :=
  (mesh_geometry m, mesh_position m, mesh_rotation m).

(** A mesh without the colour of its material. *)
Definition mesh_but_colour (m : Mesh)
  : Geometry * Vector3 * Euler * ObjId * MaterialKind * option Z :=
  (mesh_geometry m, mesh_position m, mesh_rotation m,
   mat_id (mesh_material m), mat_kind (mesh_material m),
   mat_emissive (mesh_material m)).

(** Two groups that agree on everything but the colours of their
    materials. *)
Definition same_shape (g1 g2 : Object3D) : Prop :=
  obj_id g1 = obj_id g2 /\
  map mesh_but_colour (obj_children g1) = map mesh_but_colour (obj_children g2) /\
  obj_position g1 = obj_position g2 /\
  obj_rotation g1 = obj_rotation g2.

Definition same_shape_opt (r1 r2 : option Object3D) : Prop :=
  match r1, r2 with
  | Some g1, Some g2 => same_shape g1 g2
  | None, None => True
  | _, _ => False
  end.

Definition is_pan (e : Event) : bool :=
  match e with
  | PanUpdate _ _ | PanEnd => true
  | _ => false
  end.

Definition is_pinch (e : Event) : bool :=
  match e with
  | PinchStart | PinchUpdate _ | PinchEnd => true
  | _ => false
  end.

(** The pinch updates of one gesture, applied in the order received. *)
Definition pinch_updates (scales : list number) (w : World) : World :=
  fold_left (fun w scale => pinchGesture.onUpdate scale w) scales w.

(** The frame handles requested so far, oldest first. *)
Fixpoint requested_handles (l : list EngineCall) : list nat :=
  match l with
  | [] => []
  | RequestAnimationFrame h :: l' => h :: requested_handles l'
  | _ :: l' => requested_handles l'
  end.

(** Calls that touch the scene graph or draw it. *)
Definition is_scene_call (c : EngineCall) : bool :=
  match c with
  | SceneRemove _ | SceneAdd _ | RendererRender _ _ => true
  | RequestAnimationFrame _ | EndFrameEXP => false
  end.

Definition is_ContextCreate (e : Event) : bool :=
  match e with
  | ContextCreate _ => true
  | _ => false
  end.

(** The selection events of a run carry entries of the two menus. *)
Definition from_menus (e : Event) : Prop :=
  match e with
  | SelectItem item => In item FURNITURE_ITEMS
  | SelectColor color => In color COLOR_OPTIONS
  | _ => True
  end.

(** The handle of the latest frame request in a call log. *)
Fixpoint last_requested_from (acc : option nat) (l : list EngineCall) : option nat :=
  match l with
  | [] => acc
  | RequestAnimationFrame h :: l' => last_requested_from (Some h) l'
  | _ :: l' => last_requested_from acc l'
  end.

Definition last_requested (l : list EngineCall) : option nat :=
  last_requested_from None l.

(** Before the GL context exists: nothing is allocated, the gesture state
    is as initialised and no call has touched a scene. *)
Definition not_started (w : World) : Prop :=
  sceneRef w = None /\ cameraRef w = None /\ rendererRef w = None /\
  objectRef w = None /\ heap w = ∅ /\ isLoading w = true /\
  rotationRef w = mkPosition 0 0 /\ lastPositionRef w = mkPosition 0 0 /\
  initialCameraZRef w = 3 /\
  existsb is_scene_call (calls w) = false.

(** Once the GL context exists: the scene is the lights, the grid and the
    one model [objectRef] points to; that model is the factory's for the
    current selection, at the origin and not rotated about z; camera and
    renderer are there. *)
Definition started (fuel : nat) (w : World) : Prop :=
  exists id camera renderer model built next,
    sceneRef w = Some (mkScene (base_nodes ++ [ModelNode id])) /\
    cameraRef w = Some camera /\
    rendererRef w = Some renderer /\
    objectRef w = Some id /\
    heap w !! id = Some model /\
    isLoading w = false /\
    createFurnitureModel fuel (item_type (selectedItem w)) (selectedColor w) id
    = Some (built, next) /\
    obj_id model = id /\
    obj_children model = obj_children built /\
    obj_position model = mkVector3 0 0 0 /\
    e_z (obj_rotation model) = 0 /\
    cam_fov camera = 75 /\ cam_near camera = 0.1 /\ cam_far camera = 1000 /\
    v_x (cam_position camera) = 0 /\ v_y (cam_position camera) = 1.

(** The frame bookkeeping: [animationRef] holds the latest requested
    handle, and handles are positive. *)
Definition frames_ok (w : World) : Prop :=
  1 <= nextHandle w /\
  animationRef w = last_requested (calls w) /\
  forall h, animationRef w = Some h -> 1 <= h.

(** What [onContextCreate] on a world [w] leaves in the world [w']. *)
Definition context_created
    (fuel : nat) (gl : ExpoWebGLRenderingContext) (w w' : World) : Prop :=
  let id := nextId w in
  let scene := mkScene (base_nodes ++ [ModelNode id]) in
  let camera :=
    mkCamera 75 (drawingBufferWidth gl / drawingBufferHeight gl) 0.1 1000
      (mkVector3 0 1 3) in
  exists built next,
    createFurnitureModel fuel (item_type (selectedItem w)) (selectedColor w) id
    = Some (built, next) /\
    sceneRef w' = Some scene /\
    cameraRef w' = Some camera /\
    rendererRef w'
    = Some (mkRenderer (drawingBufferWidth gl) (drawingBufferHeight gl) 0xf0f0f0) /\
    objectRef w' = Some id /\
    heap w' !! id
    = Some (mkObject3D id (obj_children built) (mkVector3 0 0 0) (mkEuler 0 0 0)) /\
    isLoading w' = false /\
    selectedItem w' = selectedItem w /\
    selectedColor w' = selectedColor w /\
    rotationRef w' = rotationRef w /\
    lastPositionRef w' = lastPositionRef w /\
    initialCameraZRef w' = initialCameraZRef w /\
    animationRef w' = Some (nextHandle w) /\
    nextHandle w' = S (nextHandle w) /\
    calls w'
    = calls w
      ++ map SceneAdd base_nodes
      ++ match objectRef w with Some old => [SceneRemove old] | None => [] end
      ++ [ SceneAdd (ModelNode id); RequestAnimationFrame (nextHandle w);
           RendererRender scene camera; EndFrameEXP ].

(** Every state the component reaches is one before or one after the
    creation of the GL context, with the frame bookkeeping in order. *)
Definition reach_inv (fuel : nat) (w : World) : Prop :=
  (not_started w \/ started fuel w) /\ frames_ok w.

(** The selection is an entry of each menu. *)
Definition selection_from_menus (w : World) : Prop :=
  In (selectedItem w) FURNITURE_ITEMS /\ In (selectedColor w) COLOR_OPTIONS.

(* ================================================================== *)
(** ** Facts about binary64 arithmetic *)
(* ================================================================== *)

Section SpecFloatOrder.

Lemma SFcompare_antisym x y :
  SFcompare y x = option_map CompOpp (SFcompare x y).
Proof.
  destruct x as [[]|[]| |[] mx ex], y as [[]|[]| |[] my ey]; try reflexivity;
    cbn [SFcompare option_map]; f_equal;
    rewrite (Z.compare_antisym ex ey);
    destruct (ex ?= ey)%Z; cbn; try reflexivity;
    change (Pos.compare_cont Eq ?a ?b) with (Pos.compare a b);
    rewrite (Pos.compare_antisym mx my); reflexivity.
Qed.

Lemma SFcompare_Eq x y :
  SFcompare x y = Some Eq ->
  x = y \/ (exists s t, x = S754_zero s /\ y = S754_zero t).
Proof.
  destruct x as [[]|[]| |[] mx ex], y as [[]|[]| |[] my ey]; cbn [SFcompare];
    try discriminate; try (left; reflexivity); try (right; eauto; fail);
    destruct (Z.compare_spec ex ey); try discriminate; subst;
    change (Pos.compare_cont Eq ?a ?b) with (Pos.compare a b);
    destruct (Pos.compare_spec mx my); try discriminate; subst; left; reflexivity.
Qed.

Lemma SFcompare_None x y :
  SFcompare x y = None -> x = S754_nan \/ y = S754_nan.
Proof.
  destruct x as [[]|[]| |[] mx ex], y as [[]|[]| |[] my ey]; cbn [SFcompare];
    try discriminate; auto.
Qed.

Lemma SFltb_trans x y z :
  SFltb x y = true -> SFltb y z = true -> SFltb x z = true.
Proof.
  unfold SFltb.
  destruct x as [[]|[]| |[] mx ex], y as [[]|[]| |[] my ey], z as [[]|[]| |[] mz ez];
    cbn [SFcompare]; try discriminate; try reflexivity;
    change (Pos.compare_cont Eq ?a ?b) with (Pos.compare a b);
    destruct (Z.compare_spec ex ey); try discriminate;
    destruct (Z.compare_spec ey ez); try discriminate;
    destruct (Z.compare_spec ex ez); try reflexivity; try lia; subst;
    destruct (Pos.compare_spec mx my); try discriminate;
    destruct (Pos.compare_spec my mz); try discriminate;
    destruct (Pos.compare_spec mx mz); try reflexivity; cbn; try discriminate; lia.
Qed.

Lemma SFclassify_nan s : SFclassify prec s = NaN <-> s = S754_nan.
Proof.
  destruct s as [[]|[]| |[] m e]; cbn [SFclassify];
    try (split; discriminate); try tauto;
    destruct (Z.eqb (Zpos (digits2_pos m)) prec); split; discriminate.
Qed.

End SpecFloatOrder.

(** Rounding a quotient never produces NaN. *)
Section Rounding.

Lemma shr_1_nonneg mrs : (0 <= shr_m mrs)%Z -> (0 <= shr_m (shr_1 mrs))%Z.
Proof.
  destruct mrs as [m r s]. cbn [shr_m]. intros H.
  destruct m as [|[p|p|]|p]; cbn; lia.
Qed.

Lemma iter_pos_shr_1_nonneg p : forall mrs,
  (0 <= shr_m mrs)%Z -> (0 <= shr_m (SpecFloat.iter_pos shr_1 p mrs))%Z.
Proof.
  induction p; intros mrs H; cbn [SpecFloat.iter_pos]; auto using shr_1_nonneg.
Qed.

Lemma shr_nonneg mrs e n :
  (0 <= shr_m mrs)%Z -> (0 <= shr_m (fst (shr mrs e n)))%Z.
Proof.
  intros H. destruct n; cbn [shr fst]; auto using iter_pos_shr_1_nonneg.
Qed.

Lemma shr_record_of_loc_m m l : shr_m (shr_record_of_loc m l) = m.
Proof. destruct l as [|[]]; reflexivity. Qed.

Lemma shr_fexp_nonneg m e l :
  (0 <= m)%Z -> (0 <= shr_m (fst (shr_fexp prec emax m e l)))%Z.
Proof.
  intros H. unfold shr_fexp. apply shr_nonneg. now rewrite shr_record_of_loc_m.
Qed.

Lemma round_nearest_even_nonneg m l :
  (0 <= m)%Z -> (0 <= round_nearest_even m l)%Z.
Proof.
  intros H. destruct l as [|[]]; cbn [round_nearest_even]; try lia.
  destruct (Z.even m); lia.
Qed.

Lemma binary_round_aux_not_nan sx mx ex lx :
  (0 <= mx)%Z -> binary_round_aux prec emax sx mx ex lx <> S754_nan.
Proof.
  intros H. unfold binary_round_aux.
  pose proof (shr_fexp_nonneg mx ex lx H) as H1.
  destruct (shr_fexp prec emax mx ex lx) as [mrs' e']. cbn [fst] in H1.
  pose proof (shr_fexp_nonneg _ e' loc_Exact
                (round_nearest_even_nonneg _ (loc_of_shr_record mrs') H1)) as H2.
  destruct (shr_fexp prec emax _ e' loc_Exact) as [mrs'' e'']. cbn [fst] in H2.
  destruct (shr_m mrs'') as [|p|p]; try discriminate; try lia.
  destruct (Z.leb _ _); discriminate.
Qed.

Lemma SFdiv_core_binary_nonneg m1 e1 m2 e2 :
  (0 <= fst (fst (SFdiv_core_binary prec emax (Zpos m1) e1 (Zpos m2) e2)))%Z.
Proof.
  unfold SFdiv_core_binary.
  set (s := (_ - _ - _)%Z).
  set (m' := match s with Z0 => _ | Zpos _ => _ | Zneg _ => _ end).
  assert (Hm : (0 <= m')%Z).
  { subst m'. destruct s; try lia. apply Z.shiftl_nonneg. lia. }
  pose proof (Z.div_pos m' (Zpos m2) Hm ltac:(lia)) as Hq.
  unfold Z.div in Hq.
  destruct (Z.div_eucl m' (Zpos m2)) as [q r]. exact Hq.
Qed.

Lemma SFdiv_finite_not_nan s m e y :
  y <> S754_nan -> SFdiv prec emax (S754_finite s m e) y <> S754_nan.
Proof.
  intros Hy.
  destruct y as [sy|sy| |sy my ey]; cbn [SFdiv]; try discriminate; try congruence.
  pose proof (SFdiv_core_binary_nonneg m e my ey) as H.
  destruct (SFdiv_core_binary prec emax (Zpos m) e (Zpos my) ey) as [[mz ez] lz].
  cbn [fst] in H. now apply binary_round_aux_not_nan.
Qed.

Lemma div_eucl_exact a b q :
  (0 < b)%Z -> a = (q * b)%Z -> Z.div_eucl a b = (q, 0%Z).
Proof.
  intros Hb ->.
  pose proof (Z.div_mul q b ltac:(lia)) as Hq.
  pose proof (Z.mod_mul q b ltac:(lia)) as Hr.
  unfold Z.div, Z.modulo in *.
  destruct (Z.div_eucl (q * b) b) as [q' r']. cbn in *. congruence.
Qed.

(** Dividing a double of the zoom range by one is exact. *)
Lemma SFdiv_one m e :
  digits2_pos m = 53%positive -> (-52 <= e <= -50)%Z ->
  SFdiv prec emax (S754_finite false m e) (Prim2SF 1) = S754_finite false m e.
Proof.
  intros Hd He.
  change (Prim2SF 1) with (S754_finite false 4503599627370496 (-52)).
  assert (Hdiv : Z.div_eucl (Z.shiftl (Zpos m) 53) 4503599627370496
                 = (Zpos m~0, 0%Z)).
  { apply div_eucl_exact; [lia|]. rewrite Z.shiftl_mul_pow2 by lia. lia. }
  assert (Hcase : e = (-52)%Z \/ e = (-51)%Z \/ e = (-50)%Z) by lia.
  destruct Hcase as [-> | [-> | ->]];
    unfold SFdiv, SFdiv_core_binary; cbn [Zdigits2]; rewrite Hd;
    match goal with |- context [IntDef.Z.min ?a ?b] =>
      let v := eval vm_compute in (IntDef.Z.min a b) in
      change (IntDef.Z.min a b) with v end;
    match goal with
    | |- context [match ?s with Z0 => _ | Zpos _ => _ | Zneg _ => _ end] =>
      let v := eval vm_compute in s in change s with v end;
    cbv iota;
    change (IntDef.Z.div_eucl (IntDef.Z.shiftl (Z.pos m) 53) 4503599627370496)
      with (Z.div_eucl (Z.shiftl (Z.pos m) 53) 4503599627370496);
    rewrite Hdiv;
    match goal with |- context [new_location ?a ?b] =>
      change (new_location a b) with loc_Exact end;
    unfold binary_round_aux, shr_fexp; cbn [Zdigits2 digits2_pos]; rewrite Hd;
    cbv -[digits2_pos]; rewrite ?Hd; reflexivity.
Qed.

End Rounding.

Section NumberFacts.

Lemma isNaN_true x : JS.isNaN x = true <-> Prim2SF x = S754_nan.
Proof.
  unfold JS.isNaN. rewrite classify_spec. unfold SF64classify.
  rewrite <- SFclassify_nan.
  destruct (SFclassify prec (Prim2SF x)); split; congruence.
Qed.

Lemma isNaN_false x : JS.isNaN x = false <-> Prim2SF x <> S754_nan.
Proof.
  rewrite <- isNaN_true. destruct (JS.isNaN x); split; congruence.
Qed.

Lemma isNaN_eq_nan x : JS.isNaN x = true -> x = nan.
Proof.
  intros H. apply isNaN_true in H. apply Prim2SF_inj. rewrite H. reflexivity.
Qed.

Lemma ltb_nan_l x y : JS.isNaN x = true -> (x <? y) = false.
Proof.
  intros H. apply isNaN_true in H. rewrite FloatAxioms.ltb_spec, H. reflexivity.
Qed.

Lemma ltb_nan_r x y : JS.isNaN y = true -> (x <? y) = false.
Proof.
  intros H. apply isNaN_true in H. rewrite FloatAxioms.ltb_spec, H.
  destruct (Prim2SF x) as [[]|[]| |[] m e]; reflexivity.
Qed.

Lemma ltb_false_leb x y :
  JS.isNaN x = false -> JS.isNaN y = false ->
  (x <? y) = false -> (y <=? x) = true.
Proof.
  intros Hx Hy. apply isNaN_false in Hx, Hy.
  rewrite FloatAxioms.ltb_spec, FloatAxioms.leb_spec. unfold SFltb, SFleb.
  rewrite (SFcompare_antisym (Prim2SF x) (Prim2SF y)).
  destruct (SFcompare (Prim2SF x) (Prim2SF y)) as [[]|] eqn:E;
    cbn; try congruence.
  apply SFcompare_None in E. tauto.
Qed.

Lemma ltb_asym x y : (x <? y) = true -> (y <? x) = false.
Proof.
  rewrite !FloatAxioms.ltb_spec. unfold SFltb.
  rewrite (SFcompare_antisym (Prim2SF x) (Prim2SF y)).
  destruct (SFcompare (Prim2SF x) (Prim2SF y)) as [[]|]; cbn; congruence.
Qed.

Lemma ltb_trans x y z : (x <? y) = true -> (y <? z) = true -> (x <? z) = true.
Proof. rewrite !FloatAxioms.ltb_spec. apply SFltb_trans. Qed.

Lemma ltb_neither x y :
  JS.isNaN x = false -> JS.isNaN y = false ->
  (x <? y) = false -> (y <? x) = false -> (y =? 0) = false -> x = y.
Proof.
  intros Hx Hy. apply isNaN_false in Hx, Hy.
  rewrite !FloatAxioms.ltb_spec, FloatAxioms.eqb_spec. unfold SFltb, SFeqb.
  rewrite (SFcompare_antisym (Prim2SF x) (Prim2SF y)).
  destruct (SFcompare (Prim2SF x) (Prim2SF y)) as [[]|] eqn:E;
    cbn; try congruence.
  - intros _ _ Hz. apply SFcompare_Eq in E as [E | (s & t & _ & E)].
    + now apply Prim2SF_inj.
    + rewrite E in Hz. change (Prim2SF 0) with (S754_zero false) in Hz.
      discriminate.
  - apply SFcompare_None in E. tauto.
Qed.

Lemma sub_0_r x : x - 0 = x.
Proof.
  apply Prim2SF_inj. rewrite FloatAxioms.sub_spec.
  change (Prim2SF 0) with (S754_zero false).
  destruct (Prim2SF x) as [[]|[]| |[] m e]; reflexivity.
Qed.

Lemma add_0_r_idem x : x + 0 + 0 = x + 0.
Proof.
  apply Prim2SF_inj. rewrite !FloatAxioms.add_spec.
  change (Prim2SF 0) with (S754_zero false).
  destruct (Prim2SF x) as [[]|[]| |[] m e]; reflexivity.
Qed.

(** The code's [Math.max(1.5, Math.min(5, q))] is the specification's
    clamp, for every double [q], NaN and the infinities included. *)
Lemma clamp_code_spec q :
  JS.Math_max 1.5 (JS.Math_min 5 q) = spec_clamp q 1.5 5.
Proof.
  unfold spec_clamp, JS.Math_min.
  change (JS.isNaN 5) with false. cbn [orb].
  destruct (JS.isNaN q) eqn:Hq.
  - rewrite (ltb_nan_l q 1.5 Hq), (ltb_nan_r 5 q Hq).
    now rewrite (isNaN_eq_nan q Hq).
  - destruct (5 <? q) eqn:H5.
    + assert ((q <? 1.5) = false) as ->.
      { destruct (q <? 1.5) eqn:E; [|reflexivity].
        assert (H : (q <? 5) = true) by (apply (ltb_trans q 1.5 5); auto).
        apply ltb_asym in H. congruence. }
      reflexivity.
    + destruct (q <? 5) eqn:Hq5.
      * unfold JS.Math_max. change (JS.isNaN 1.5) with false. rewrite Hq.
        cbn [orb]. destruct (1.5 <? q) eqn:H1.
        -- now rewrite (ltb_asym _ _ H1).
        -- destruct (q <? 1.5) eqn:H2; [reflexivity|].
           change (JS.isNegZero 1.5) with false. cbv iota.
           symmetry. apply ltb_neither; auto.
      * assert (q = 5) as -> by (apply ltb_neither; auto).
        reflexivity.
Qed.

Lemma spec_clamp_in_range q :
  JS.isNaN q = false -> in_range (spec_clamp q 1.5 5) = true.
Proof.
  intros Hq. unfold spec_clamp.
  destruct (q <? 1.5) eqn:H1; [reflexivity|].
  destruct (5 <? q) eqn:H5; [reflexivity|].
  unfold in_range. rewrite (ltb_false_leb q 1.5), (ltb_false_leb 5 q); auto.
Qed.

(** A double of the zoom range is a positive normal number with exponent
    between [-52] and [-50]. *)
Lemma in_range_finite a :
  in_range a = true ->
  exists m e, Prim2SF a = S754_finite false m e /\
              digits2_pos m = 53%positive /\ (-52 <= e <= -50)%Z.
Proof.
  unfold in_range. rewrite andb_true_iff, !FloatAxioms.leb_spec.
  change (Prim2SF 1.5) with (S754_finite false 6755399441055744 (-52)).
  change (Prim2SF 5) with (S754_finite false 5629499534213120 (-50)).
  pose proof (Prim2SF_valid a) as Hv.
  destruct (Prim2SF a) as [[]|[]| |[] m e]; unfold SFleb; cbn [SFcompare];
    intros [H1 H2]; try discriminate.
  exists m, e. split; [reflexivity|].
  assert (He : (-52 <= e <= -50)%Z).
  { destruct (Z.compare_spec (-52) e), (Z.compare_spec e (-50));
      try discriminate; lia. }
  split; [|exact He].
  cbn [valid_binary] in Hv. unfold bounded, canonical_mantissa in Hv.
  apply andb_true_iff in Hv as [Hv _]. apply Z.eqb_eq in Hv.
  unfold fexp, emin in Hv. change prec with 53%Z in Hv.
  change emax with 1024%Z in Hv. lia.
Qed.

Lemma div_not_nan a s :
  in_range a = true -> JS.isNaN s = false -> JS.isNaN (a / s) = false.
Proof.
  intros Ha Hs. apply in_range_finite in Ha as (m & e & Ha & _).
  apply isNaN_false in Hs. apply isNaN_false.
  rewrite FloatAxioms.div_spec, Ha. now apply SFdiv_finite_not_nan.
Qed.

Lemma div_1 a : in_range a = true -> a / 1 = a.
Proof.
  intros Ha. apply in_range_finite in Ha as (m & e & Ha & Hd & He).
  apply Prim2SF_inj. rewrite FloatAxioms.div_spec, Ha. now apply SFdiv_one.
Qed.

End NumberFacts.

(* ================================================================== *)
(** ** Model factory: what [createFurnitureModel] builds *)
(* ================================================================== *)

Section Factory.

Variable fuel : nat.
Hypothesis fuel_enough : 3 <= fuel.

(** A loop over the two corner offsets [-c] and [-c + 2c] runs its body
    at exactly those two values: the third test of the condition fails. *)
Lemma for_le_chair {A} (body : number -> A -> option A) (acc : A) :
  for_le fuel (-0.4) 0.4 0.8 body acc
  = match body (-0.4) acc with Some acc' => body 0.4 acc' | None => None end.
Proof.
  destruct fuel as [|[|[|k]]]; try lia. cbn [for_le].
  change (-0.4 <=? 0.4) with true. change (-0.4 + 0.8) with 0.4.
  change (0.4 <=? 0.4) with true. change (0.4 + 0.8 <=? 0.4) with false.
  cbv iota.
  destruct (body (-0.4) acc) as [acc'|]; [|reflexivity].
  destruct (body 0.4 acc'); reflexivity.
Qed.

Lemma for_le_table_x {A} (body : number -> A -> option A) (acc : A) :
  for_le fuel (-0.9) 0.9 1.8 body acc
  = match body (-0.9) acc with Some acc' => body 0.9 acc' | None => None end.
Proof.
  destruct fuel as [|[|[|k]]]; try lia. cbn [for_le].
  change (-0.9 <=? 0.9) with true. change (-0.9 + 1.8) with 0.9.
  change (0.9 <=? 0.9) with true. change (0.9 + 1.8 <=? 0.9) with false.
  cbv iota.
  destruct (body (-0.9) acc) as [acc'|]; [|reflexivity].
  destruct (body 0.9 acc'); reflexivity.
Qed.

Lemma for_le_table_z {A} (body : number -> A -> option A) (acc : A) :
  for_le fuel (-0.65) 0.65 1.3 body acc
  = match body (-0.65) acc with Some acc' => body 0.65 acc' | None => None end.
Proof.
  destruct fuel as [|[|[|k]]]; try lia. cbn [for_le].
  change (-0.65 <=? 0.65) with true. change (-0.65 + 1.3) with 0.65.
  change (0.65 <=? 0.65) with true. change (0.65 + 1.3 <=? 0.65) with false.
  cbv iota.
  destruct (body (-0.65) acc) as [acc'|]; [|reflexivity].
  destruct (body 0.65 acc'); reflexivity.
Qed.

Lemma createFurnitureModel_chair color next :
  createFurnitureModel fuel chair color next
  = Some (mkObject3D next (spec_chair_parts (coloredMaterial color next))
            origin no_rotation, S (S next)).
Proof.
  unfold createFurnitureModel. rewrite for_le_chair.
  rewrite !for_le_chair. reflexivity.
Qed.

Lemma createFurnitureModel_materials type color next :
  exists model,
    createFurnitureModel fuel type color next
    = Some (model, match type with lamp => S (S (S next)) | _ => S (S next) end) /\
    obj_id model = next /\
    obj_children model <> [] /\
    Forall (fun m => mesh_material m = coloredMaterial color next \/
                     (type = lamp /\ mesh_material m = bulbMaterial next))
           (obj_children model).
Proof.
  destruct type.
  - rewrite createFurnitureModel_chair. eexists. split; [reflexivity|].
    split; [reflexivity|]. split; [discriminate|].
    repeat constructor.
  - unfold createFurnitureModel. rewrite for_le_table_x.
    rewrite !for_le_table_z. eexists. split; [reflexivity|].
    split; [reflexivity|]. split; [discriminate|].
    repeat (constructor; [left; reflexivity|]). constructor.
  - eexists. split; [reflexivity|]. split; [reflexivity|].
    split; [discriminate|].
    repeat (constructor; [first [left; reflexivity | right; split; reflexivity]|]).
    constructor.
Qed.

End Factory.

(** C4: for the chair and any colour the factory returns a group of exactly
    six meshes: the 1 x 0.1 x 1 seat at height 0.5, the 1 x 1 x 0.1 backrest
    at height 1 set back by 0.45, and four cylindrical legs (radius 0.05,
    height 0.5) at height 0.25 on the four corners (+-0.4, +-0.4); each of
    the two loops stepping a double by 0.8 from -0.4 runs its body exactly
    twice, at -0.4 and at 0.4. *)
Theorem chair_has_six_parts (fuel : nat) (color : ColorOption) (next : ObjId) :
  3 <= fuel ->
  exists model,
    createFurnitureModel fuel chair color next = Some (model, S (S next)) /\
    obj_children model = spec_chair_parts (coloredMaterial color next) /\
    length (obj_children model) = 6%nat /\
    (forall (A : Type) (body : number -> A -> option A) (acc : A),
        for_le fuel (-0.4) 0.4 0.8 body acc
        = match body (-0.4) acc with
          | Some acc' => body 0.4 acc'
          | None => None
          end).
Proof.
  intros Hfuel. eexists. split; [apply createFurnitureModel_chair; exact Hfuel|].
  split; [reflexivity|]. split; [reflexivity|].
  intros A body acc. now apply for_le_chair.
Qed.

Lemma chair_has_six_parts_witness :
  3 <= 3 /\
  exists model,
    createFurnitureModel 3 chair (mkColorOption "White" 0xffffff) 0%nat
    = Some (model, 2%nat) /\
    obj_children model
    = spec_chair_parts (coloredMaterial (mkColorOption "White" 0xffffff) 0%nat) /\
    length (obj_children model) = 6%nat /\
    (forall (A : Type) (body : number -> A -> option A) (acc : A),
        for_le 3 (-0.4) 0.4 0.8 body acc
        = match body (-0.4) acc with
          | Some acc' => body 0.4 acc'
          | None => None
          end).
Proof.
  split; [lia|].
  apply (chair_has_six_parts 3 (mkColorOption "White" 0xffffff) 0%nat). lia.
Defined.

(** C7: for every furniture kind and colour the factory returns a non-empty
    group whose meshes use at most two material instances.  All regular
    parts hold one and the same instance of a Phong material whose colour
    is the colour choice's packed RGB value: every part of the chair and of
    the table, and the base, the pole and the shade of the lamp.  The lamp's
    fourth part, the bulb (the sphere of radius 0.1), holds another
    instance, a basic material of colour 0xffffcc; the bulb's material is
    the same whatever colour the lamp is built in. *)
Theorem build_uses_two_materials
    (fuel : nat) (type : FurnitureType) (color : ColorOption) (next : ObjId) :
  3 <= fuel ->
  exists model next' material,
    createFurnitureModel fuel type color next = Some (model, next') /\
    obj_children model <> [] /\
    mat_kind material = MeshPhongMaterial /\
    mat_color material = color_value color /\
    match type with
    | lamp =>
        exists base pole shade bulb,
          obj_children model = [base; pole; shade; bulb] /\
          mesh_material base = material /\
          mesh_material pole = material /\
          mesh_material shade = material /\
          mesh_geometry bulb = SphereGeometry 0.1 16 16 /\
          mat_kind (mesh_material bulb) = MeshBasicMaterial /\
          mat_color (mesh_material bulb) = 0xffffcc%Z /\
          mat_id (mesh_material bulb) <> mat_id material /\
          forall color' : ColorOption,
            exists model' base' pole' shade' bulb',
              createFurnitureModel fuel lamp color' next = Some (model', next') /\
              obj_children model' = [base'; pole'; shade'; bulb'] /\
              mat_color (mesh_material base') = color_value color' /\
              mesh_material bulb' = mesh_material bulb
    | _ => Forall (fun m => mesh_material m = material) (obj_children model)
    end.
Proof.
  intros Hfuel. destruct type.
  - rewrite (createFurnitureModel_chair fuel Hfuel).
    eexists. eexists. exists (mkMaterial (S next) MeshPhongMaterial (color_value color) None).
    split; [reflexivity|]. split; [discriminate|].
    split; [reflexivity|]. split; [reflexivity|].
    repeat (apply List.Forall_cons; [reflexivity|]). apply List.Forall_nil.
  - unfold createFurnitureModel. rewrite for_le_table_x by exact Hfuel.
    rewrite !for_le_table_z by exact Hfuel.
    eexists. eexists. exists (mkMaterial (S next) MeshPhongMaterial (color_value color) None).
    split; [reflexivity|]. split; [discriminate|].
    split; [reflexivity|]. split; [reflexivity|].
    repeat (apply List.Forall_cons; [reflexivity|]). apply List.Forall_nil.
  - eexists. eexists. exists (mkMaterial (S next) MeshPhongMaterial (color_value color) None).
    split; [reflexivity|]. split; [discriminate|].
    split; [reflexivity|]. split; [reflexivity|].
    do 4 eexists. split; [reflexivity|].
    repeat (split; [reflexivity|]).
    split; [cbn; lia|].
    intros color'. do 5 eexists. split; [reflexivity|].
    split; [reflexivity|]. split; reflexivity.
Qed.

Lemma build_uses_two_materials_witness :
  exists model,
    createFurnitureModel 3 lamp (mkColorOption "Blue" 0x4169e1) 0%nat
    = Some (model, 3%nat) /\
    map (fun m => mat_color (mesh_material m)) (obj_children model)
    = [0x4169e1; 0x4169e1; 0x4169e1; 0xffffcc]%Z.
Proof.
  destruct (build_uses_two_materials 3 lamp (mkColorOption "Blue" 0x4169e1) 0%nat)
    as (model & next' & material & Hm & _ & _ & Hc & base & pole & shade & bulb
        & Hch & Hb & Hp & Hs & _ & _ & Hl & _); [lia|].
  exists model. split.
  - rewrite Hm. injection Hm as _ <-. reflexivity.
  - rewrite Hch. cbn [map]. now rewrite Hb, Hp, Hs, Hl, Hc.
Defined.

(* ================================================================== *)
(** ** Scene manager: what [updateFurnitureModel] changes *)
(* ================================================================== *)

Lemma scene_remove_controller id w :
  controllerState (scene_remove id w) = controllerState w.
Proof. unfold scene_remove. destruct (sceneRef w); reflexivity. Qed.

Lemma scene_add_controller n w :
  controllerState (scene_add n w) = controllerState w.
Proof. unfold scene_add. destruct (sceneRef w); reflexivity. Qed.

Lemma removeExisting_controller w :
  controllerState (removeExisting w) = controllerState w.
Proof.
  unfold removeExisting. destruct (objectRef w); [|reflexivity].
  apply scene_remove_controller.
Qed.

Lemma createAndAdd_controller fuel w w' :
  createAndAdd fuel w = Some w' -> controllerState w' = controllerState w.
Proof.
  unfold createAndAdd.
  destruct (createFurnitureModel fuel _ _ _) as [[model next]|]; [|discriminate].
  intros [= <-]. now rewrite scene_add_controller.
Qed.

Lemma updateFurnitureModel_controller fuel w w' :
  updateFurnitureModel fuel w = Some w' -> controllerState w' = controllerState w.
Proof.
  unfold updateFurnitureModel. destruct (sceneRef w).
  - intros H. apply createAndAdd_controller in H.
    now rewrite H, removeExisting_controller.
  - now intros [= <-].
Qed.

Lemma render_controller w : controllerState (render w) = controllerState w.
Proof.
  unfold render. cbn.
  destruct (rendererRef w), (sceneRef w), (cameraRef w); reflexivity.
Qed.

Section Totality.

Variable fuel : nat.
Hypothesis fuel_enough : 3 <= fuel.

(** With fuel for three tests of a loop condition the rebuild returns;
    the new model is the factory's, moved to the origin and unrotated,
    stored under a fresh identity and pushed on the scene. *)
Lemma createAndAdd_total w :
  exists model next,
    createFurnitureModel fuel (item_type (selectedItem w)) (selectedColor w)
      (nextId w) = Some (model, next) /\
    obj_id model = nextId w /\
    createAndAdd fuel w
    = Some (scene_add (ModelNode (nextId w))
              (update_object (nextId w) (obj_set_rotation (mkEuler 0 0 0))
                 (update_object (nextId w) (obj_set_position (mkVector3 0 0 0))
                    (set_objectRef (Some (nextId w))
                       (set_heap (<[nextId w := model]> (heap w))
                          (set_nextId next w)))))).
Proof.
  destruct (createFurnitureModel_materials fuel fuel_enough
              (item_type (selectedItem w)) (selectedColor w) (nextId w))
    as (model & Hm & Hid & _).
  exists model. eexists. split; [exact Hm|]. split; [exact Hid|].
  unfold createAndAdd. rewrite Hm, Hid. reflexivity.
Qed.

Lemma updateFurnitureModel_total w :
  exists w', updateFurnitureModel fuel w = Some w'.
Proof.
  unfold updateFurnitureModel. destruct (sceneRef w); [|eauto].
  destruct (createAndAdd_total (removeExisting w)) as (? & ? & _ & _ & ->).
  eauto.
Qed.

Lemma onContextCreate_total gl w : exists w', onContextCreate fuel gl w = Some w'.
Proof.
  unfold onContextCreate.
  match goal with |- context [updateFurnitureModel fuel ?x] =>
    destruct (updateFurnitureModel_total x) as [w1 ->] end.
  eauto.
Qed.

Lemma step_total e w : exists w', step fuel e w = Some w'.
Proof.
  destruct e; cbn [step]; eauto using onContextCreate_total.
  - unfold selectItem. destruct (item_eqb _ _); eauto using updateFurnitureModel_total.
  - unfold selectColor. destruct (color_eqb _ _); eauto using updateFurnitureModel_total.
Qed.

Lemma run_total es : forall w, exists w', run fuel es w = Some w'.
Proof.
  induction es as [|e es IH]; intros w; cbn [run]; [eauto|].
  destruct (step_total e w) as [w1 ->]. apply IH.
Qed.

End Totality.

(* ================================================================== *)
(** ** Pinch: zoom distance *)
(* ================================================================== *)

Lemma leb_not_ltb x y : (x <=? y) = true -> (y <? x) = false.
Proof.
  rewrite FloatAxioms.leb_spec, FloatAxioms.ltb_spec. unfold SFleb, SFltb.
  rewrite (SFcompare_antisym (Prim2SF x) (Prim2SF y)).
  destruct (SFcompare (Prim2SF x) (Prim2SF y)) as [[]|]; cbn; congruence.
Qed.

Lemma spec_clamp_id d : in_range d = true -> spec_clamp d 1.5 5 = d.
Proof.
  unfold in_range, spec_clamp. intros [H1 H2]%andb_true_iff.
  now rewrite (leb_not_ltb _ _ H1), (leb_not_ltb _ _ H2).
Qed.

Lemma pinch_onUpdate_distance w camera scale :
  cameraRef w = Some camera ->
  cameraDistance (pinchGesture.onUpdate scale w)
  = Some (spec_clamp (initialCameraZRef w / scale) 1.5 5).
Proof.
  intros Hc. unfold pinchGesture.onUpdate. rewrite Hc.
  unfold cameraDistance. cbn. now rewrite clamp_code_spec.
Qed.

(** C1: after a pinch update with scale [s] the camera distance is
    [clamp(a / s, 1.5, 5)], where [a] is the anchor; with [s = 1], an
    anchor captured at pinch start and a prior distance within [1.5, 5] the
    distance is unchanged; from anchor 3, [s = 10] gives 1.5, [s = 0.1]
    gives 5 and [s = 2] gives exactly 1.5. *)
Theorem pinch_update_clamps_distance
    (w : World) (camera : PerspectiveCamera) (scale : number) :
  cameraRef w = Some camera ->
  cameraDistance (pinchGesture.onUpdate scale w)
  = Some (spec_clamp (initialCameraZRef w / scale) 1.5 5) /\
  (in_range (v_z (cam_position camera)) = true ->
   cameraDistance (pinchGesture.onUpdate 1 (pinchGesture.onStart w))
   = cameraDistance w) /\
  (initialCameraZRef w = 3 ->
   cameraDistance (pinchGesture.onUpdate 10 w) = Some 1.5 /\
   cameraDistance (pinchGesture.onUpdate 0.1 w) = Some 5 /\
   cameraDistance (pinchGesture.onUpdate 2 w) = Some 1.5).
Proof.
  intros Hc. split; [now apply pinch_onUpdate_distance with camera|]. split.
  - intros Hr.
    assert (Hs : cameraRef (pinchGesture.onStart w) = Some camera).
    { unfold pinchGesture.onStart. now rewrite Hc. }
    rewrite (pinch_onUpdate_distance _ camera 1 Hs).
    unfold pinchGesture.onStart, cameraDistance. rewrite Hc. cbn.
    now rewrite (div_1 _ Hr), (spec_clamp_id _ Hr).
  - intros Ha.
    rewrite !(pinch_onUpdate_distance w camera _ Hc), Ha. repeat split.
Qed.

Lemma pinch_update_clamps_distance_witness :
  cameraDistance (pinchGesture.onUpdate 2 (set_cameraRef (Some (cameraAt 3)) initialWorld))
  = Some (spec_clamp (3 / 2) 1.5 5).
Proof.
  exact (proj1 (pinch_update_clamps_distance
                  (set_cameraRef (Some (cameraAt 3)) initialWorld) (cameraAt 3) 2
                  eq_refl)).
Defined.

Lemma zoom_ok_controller w w' :
  controllerState w' = controllerState w -> zoom_ok w -> zoom_ok w'.
Proof.
  unfold controllerState, zoom_ok, cameraDistance. intros [= _ _ -> ->]. auto.
Qed.

Lemma onContextCreate_camera fuel gl w w' :
  onContextCreate fuel gl w = Some w' ->
  cameraDistance w' = Some 3 /\
  initialCameraZRef w' = initialCameraZRef w /\
  rotationRef w' = rotationRef w /\
  lastPositionRef w' = lastPositionRef w.
Proof.
  unfold onContextCreate.
  match goal with |- context [updateFurnitureModel fuel ?x] =>
    destruct (updateFurnitureModel fuel x) as [w1|] eqn:E end; [|discriminate].
  intros [= <-]. apply updateFurnitureModel_controller in E.
  pose proof (render_controller w1) as R. rewrite E in R.
  unfold controllerState, cameraDistance in *. cbn in *.
  injection R as -> -> -> ->. auto.
Qed.

Lemma pan_onUpdate_zoom tx ty w :
  initialCameraZRef (panGesture.onUpdate tx ty w) = initialCameraZRef w /\
  cameraRef (panGesture.onUpdate tx ty w) = cameraRef w.
Proof. unfold panGesture.onUpdate. destruct (objectRef w); auto. Qed.

Lemma pan_onEnd_zoom w :
  initialCameraZRef (panGesture.onEnd w) = initialCameraZRef w /\
  cameraRef (panGesture.onEnd w) = cameraRef w.
Proof.
  unfold panGesture.onEnd. destruct (objectRef w) as [obj|]; auto.
  destruct (heap w !! obj); auto.
Qed.

Lemma selectItem_controller fuel item w w' :
  selectItem fuel item w = Some w' -> controllerState w' = controllerState w.
Proof.
  unfold selectItem. destruct (item_eqb _ _); [now intros [= <-]|].
  intros H. now apply updateFurnitureModel_controller in H.
Qed.

Lemma selectColor_controller fuel color w w' :
  selectColor fuel color w = Some w' -> controllerState w' = controllerState w.
Proof.
  unfold selectColor. destruct (color_eqb _ _); [now intros [= <-]|].
  intros H. now apply updateFurnitureModel_controller in H.
Qed.

Lemma step_zoom_ok fuel e w w' :
  scale_is_number e = true -> zoom_ok w -> step fuel e w = Some w' -> zoom_ok w'.
Proof.
  intros Hs Hok. destruct e; cbn [step].
  - intros H. apply onContextCreate_camera in H as (Hd & Ha & _).
    split; [rewrite Ha; exact (proj1 Hok)|]. rewrite Hd. now intros d [= <-].
  - intros [= <-]. exact (zoom_ok_controller _ _ (render_controller w) Hok).
  - intros H. exact (zoom_ok_controller _ _ (selectItem_controller _ _ _ _ H) Hok).
  - intros H. exact (zoom_ok_controller _ _ (selectColor_controller _ _ _ _ H) Hok).
  - intros [= <-]. destruct (pan_onUpdate_zoom translationX translationY w) as [Ha Hc].
    unfold zoom_ok, cameraDistance. rewrite Ha, Hc. exact Hok.
  - intros [= <-]. destruct (pan_onEnd_zoom w) as [Ha Hc].
    unfold zoom_ok, cameraDistance. rewrite Ha, Hc. exact Hok.
  - intros [= <-]. destruct Hok as [Ha Hd].
    unfold pinchGesture.onStart, zoom_ok, cameraDistance in *.
    destruct (cameraRef w) as [c|] eqn:Hc; cbn; rewrite ?Hc; auto.
  - intros [= <-]. destruct Hok as [Ha Hd]. cbn in Hs.
    apply negb_true_iff in Hs.
    destruct (cameraRef w) as [c|] eqn:Hc.
    + split; [unfold pinchGesture.onUpdate; rewrite Hc; exact Ha|].
      rewrite (pinch_onUpdate_distance w c scale Hc). intros d [= <-].
      apply spec_clamp_in_range. now apply div_not_nan.
    + unfold pinchGesture.onUpdate. rewrite Hc. split; [exact Ha|].
      unfold cameraDistance. now rewrite Hc.
  - intros [= <-]. destruct Hok as [Ha Hd].
    unfold pinchGesture.onEnd, zoom_ok, cameraDistance in *.
    destruct (cameraRef w) as [c|] eqn:Hc; cbn; rewrite ?Hc; auto.
Qed.

Lemma run_zoom_ok fuel es : forall w w',
  forallb scale_is_number es = true -> zoom_ok w ->
  run fuel es w = Some w' -> zoom_ok w'.
Proof.
  induction es as [|e es IH]; intros w w' Hs Hok; cbn [run].
  - now intros [= <-].
  - cbn in Hs. apply andb_true_iff in Hs as [He Hes].
    destruct (step fuel e w) as [w1|] eqn:E; [|discriminate].
    apply (IH w1 w' Hes). exact (step_zoom_ok fuel e w w1 He Hok E).
Qed.

Lemma initialWorld_zoom_ok : zoom_ok initialWorld.
Proof. split; [reflexivity|]. intros d [=]. Qed.

(** C5, as the code has it: initialization puts the camera at distance 3,
    and from then on, whatever the events, as long as every pinch scale is
    a number (not NaN), the distance stays within [1.5, 5]: pinch start and
    pinch end do not write the distance, and pinch update writes the
    clamped value. *)
Theorem zoom_distance_stays_in_range (fuel : nat) (es : list Event) :
  3 <= fuel ->
  forallb scale_is_number es = true ->
  (forall gl w0 w1, onContextCreate fuel gl w0 = Some w1 ->
                    cameraDistance w1 = Some 3) /\
  exists w,
    run fuel es initialWorld = Some w /\
    in_range (initialCameraZRef w) = true /\
    (forall d, cameraDistance w = Some d -> in_range d = true) /\
    cameraDistance (pinchGesture.onStart w) = cameraDistance w /\
    cameraDistance (pinchGesture.onEnd w) = cameraDistance w /\
    (forall scale d, JS.isNaN scale = false ->
       cameraDistance (pinchGesture.onUpdate scale w) = Some d ->
       d = spec_clamp (initialCameraZRef w / scale) 1.5 5 /\ in_range d = true).
Proof.
  intros Hfuel Hs. split.
  { intros gl w0 w1 H. now apply onContextCreate_camera in H. }
  destruct (run_total fuel Hfuel es initialWorld) as [w Hw].
  pose proof (run_zoom_ok fuel es _ _ Hs initialWorld_zoom_ok Hw) as [Ha Hd].
  exists w. split; [exact Hw|]. split; [exact Ha|]. split; [exact Hd|].
  split; [|split].
  - unfold pinchGesture.onStart, cameraDistance.
    destruct (cameraRef w) eqn:Hc; cbn; now rewrite Hc.
  - unfold pinchGesture.onEnd, cameraDistance.
    destruct (cameraRef w) eqn:Hc; cbn; now rewrite Hc.
  - intros scale d Hn. destruct (cameraRef w) as [c|] eqn:Hc.
    + rewrite (pinch_onUpdate_distance w c scale Hc). intros [= <-].
      split; [reflexivity|]. apply spec_clamp_in_range. now apply div_not_nan.
    + unfold pinchGesture.onUpdate, cameraDistance. rewrite Hc. cbv iota.
      rewrite Hc. discriminate.
Qed.

Lemma zoom_distance_stays_in_range_witness :
  exists w,
    run 3 es_zoom initialWorld = Some w /\
    in_range (initialCameraZRef w) = true /\
    (forall d, cameraDistance w = Some d -> in_range d = true).
Proof.
  destruct (zoom_distance_stays_in_range 3 es_zoom ltac:(lia) eq_refl)
    as [_ (w & Hw & Ha & Hd & _)].
  exists w. split; [exact Hw|]. split; [exact Ha|exact Hd].
Defined.

(** A pinch update whose scale is NaN leaves the camera at distance NaN,
    which is outside [1.5, 5]. *)
Lemma zoom_distance_escapes_on_NaN :
  exists w d,
    run 3 [ContextCreate (mkGL 400 300); PinchStart; PinchUpdate nan] initialWorld
    = Some w /\
    cameraDistance w = Some d /\ in_range d = false.
Proof.
  eexists. eexists. split; [vm_compute; reflexivity|].
  split; [vm_compute; reflexivity|]. reflexivity.
Qed.

(* ================================================================== *)
(** ** Pan: rotation *)
(* ================================================================== *)

Lemma pan_onUpdate_unfold tx ty w obj :
  objectRef w = Some obj ->
  let r := mkPosition
             (pos_x (rotationRef w) + (ty - pos_y (lastPositionRef w)) * 0.01)
             (pos_y (rotationRef w) + (tx - pos_x (lastPositionRef w)) * 0.01) in
  rotationRef (panGesture.onUpdate tx ty w) = r /\
  lastPositionRef (panGesture.onUpdate tx ty w) = mkPosition tx ty /\
  objectRef (panGesture.onUpdate tx ty w) = Some obj /\
  heap (panGesture.onUpdate tx ty w) !! obj
  = (fun o => mkObject3D (obj_id o) (obj_children o) (obj_position o)
                (mkEuler (pos_x r) (pos_y r) (e_z (obj_rotation o))))
      <$> heap w !! obj.
Proof.
  intros Ho. unfold panGesture.onUpdate. rewrite Ho. cbn.
  split; [reflexivity|]. split; [reflexivity|]. split; [exact Ho|].
  unfold update_object. cbn.
  rewrite !lookup_alter_eq. now destruct (heap w !! obj).
Qed.

(** C2: a pan update with a model attached computes the delta of the raw
    sample against the last sample, adds [delta.y * 0.01] to orientation x
    and [delta.x * 0.01] to orientation y, writes the accumulated
    orientation into the model's rotation x and y, and stores the raw
    sample as the last sample.  The model after the update is written out
    field by field: identity, children, position and rotation about z are
    those of the model before, rotation about x and y are the two sums; no
    other object of the store is touched. *)
Theorem pan_update_accumulates
    (w : World) (obj : ObjId) (o : Object3D) (translationX translationY : number) :
  objectRef w = Some obj ->
  heap w !! obj = Some o ->
  let deltaX := translationX - pos_x (lastPositionRef w) in
  let deltaY := translationY - pos_y (lastPositionRef w) in
  let w' := panGesture.onUpdate translationX translationY w in
  rotationRef w'
  = mkPosition (pos_x (rotationRef w) + deltaY * 0.01)
               (pos_y (rotationRef w) + deltaX * 0.01) /\
  objectRef w' = Some obj /\
  currentModel w'
  = Some (mkObject3D (obj_id o) (obj_children o) (obj_position o)
            (mkEuler (pos_x (rotationRef w) + deltaY * 0.01)
                     (pos_y (rotationRef w) + deltaX * 0.01)
                     (e_z (obj_rotation o)))) /\
  (forall other, other <> obj -> heap w' !! other = heap w !! other) /\
  lastPositionRef w' = mkPosition translationX translationY.
Proof.
  intros Ho Hh deltaX deltaY w'.
  destruct (pan_onUpdate_unfold translationX translationY w obj Ho)
    as (Hr & Hl & Hobj & Hheap).
  split; [exact Hr|]. split; [exact Hobj|].
  split; [|split; [|exact Hl]].
  - unfold currentModel. subst w'. rewrite Hobj, Hheap, Hh. reflexivity.
  - intros other Hne. subst w'. unfold panGesture.onUpdate. rewrite Ho.
    unfold update_object. cbn. now rewrite !lookup_alter_ne by congruence.
Qed.

(** C8: pan end with a model attached stores the model's rotation (x, y)
    into the orientation state and resets the last sample to (0, 0), so the
    first update of the next pan gesture has a delta equal to its raw
    sample. *)
Theorem pan_end_resyncs_and_resets
    (w : World) (obj : ObjId) (o : Object3D) (translationX translationY : number) :
  objectRef w = Some obj ->
  heap w !! obj = Some o ->
  let w1 := panGesture.onEnd w in
  rotationRef w1 = rotationXY o /\
  lastPositionRef w1 = mkPosition 0 0 /\
  translationX - pos_x (lastPositionRef w1) = translationX /\
  translationY - pos_y (lastPositionRef w1) = translationY /\
  rotationRef (panGesture.onUpdate translationX translationY w1)
  = mkPosition (e_x (obj_rotation o) + translationY * 0.01)
               (e_y (obj_rotation o) + translationX * 0.01).
Proof.
  intros Ho Hh w1.
  assert (H1 : rotationRef w1 = rotationXY o /\ lastPositionRef w1 = mkPosition 0 0
               /\ objectRef w1 = Some obj).
  { subst w1. unfold panGesture.onEnd. rewrite Ho, Hh. cbn. auto. }
  destruct H1 as (Hr & Hl & Hobj).
  split; [exact Hr|]. split; [exact Hl|]. rewrite Hl. cbn [pos_x pos_y].
  split; [apply sub_0_r|]. split; [apply sub_0_r|].
  destruct (pan_onUpdate_unfold translationX translationY w1 obj Hobj) as (-> & _).
  rewrite Hr, Hl. cbn [pos_x pos_y rotationXY]. now rewrite !sub_0_r.
Qed.

Lemma readyWorld_reached :
  run 3 [ContextCreate (mkGL 400 300)] initialWorld = Some readyWorld.
Proof. vm_compute. reflexivity. Qed.

Lemma turnedWorld_reached :
  run 3 [ContextCreate (mkGL 400 300); PanUpdate 1 0; PanEnd] initialWorld
  = Some turnedWorld.
Proof. vm_compute. reflexivity. Qed.

Lemma pan_update_accumulates_witness :
  rotationRef (panGesture.onUpdate 100 50 readyWorld) = mkPosition 0.5 1 /\
  currentModel (panGesture.onUpdate 100 50 readyWorld)
  = Some (mkObject3D 0%nat (obj_children readyChair) (mkVector3 0 0 0)
            (mkEuler 0.5 1 0)) /\
  lastPositionRef (panGesture.onUpdate 100 50 readyWorld) = mkPosition 100 50.
Proof.
  destruct (pan_update_accumulates readyWorld 0%nat readyChair 100 50
              eq_refl eq_refl) as (Hr & _ & Hm & _ & Hl).
  split; [exact Hr|]. split; [exact Hm|exact Hl].
Defined.

Lemma pan_end_resyncs_and_resets_witness :
  rotationRef (panGesture.onEnd (panGesture.onUpdate 100 50 readyWorld))
  = mkPosition 0.5 1.
Proof.
  exact (proj1 (pan_end_resyncs_and_resets
                  (panGesture.onUpdate 100 50 readyWorld) 0%nat
                  (obj_set_rotation (mkEuler 0.5 1 0) readyChair) 7 9
                  eq_refl eq_refl)).
Defined.

(** C9, as the code has it: from last sample (0,0), the raw samples (3,0)
    then (5,0) and the single raw sample (5,0) leave the same last sample
    and the same rotation about x; they leave the same rotation about y,
    hence the same model rotation, when the accumulated orientation about y
    is 0 at the start, as it is initially. *)
Theorem pan_two_updates_equal_one (w : World) :
  lastPositionRef w = mkPosition 0 0 ->
  let two := panGesture.onUpdate 5 0 (panGesture.onUpdate 3 0 w) in
  let one := panGesture.onUpdate 5 0 w in
  lastPositionRef two = lastPositionRef one /\
  pos_x (rotationRef two) = pos_x (rotationRef one) /\
  (pos_y (rotationRef w) = 0 ->
   rotationRef two = rotationRef one /\ currentModel two = currentModel one).
Proof.
  intros Hl two one. subst two one.
  destruct (objectRef w) as [obj|] eqn:Ho.
  - destruct (pan_onUpdate_unfold 3 0 w obj Ho) as (Hr1 & Hl1 & Ho1 & Hh1).
    destruct (pan_onUpdate_unfold 5 0 (panGesture.onUpdate 3 0 w) obj Ho1)
      as (Hr2 & Hl2 & Ho2 & Hh2).
    destruct (pan_onUpdate_unfold 5 0 w obj Ho) as (Hr & Hl' & Ho' & Hh).
    rewrite Hr1, Hl1 in Hr2, Hh2. rewrite Hl in *. cbn [pos_x pos_y] in *.
    change ((0 - 0) * 0.01) with 0 in *.
    rewrite add_0_r_idem in Hr2, Hh2.
    split; [now rewrite Hl2, Hl'|]. split; [now rewrite Hr2, Hr|].
    intros Hy. rewrite Hy in *.
    change (0 + (3 - 0) * 0.01 + (5 - 3) * 0.01) with (0 + (5 - 0) * 0.01) in *.
    split; [now rewrite Hr2, Hr|].
    unfold currentModel. rewrite Ho2, Ho', Hh2, Hh1, Hh.
    now destruct (heap w !! obj).
  - unfold panGesture.onUpdate. rewrite Ho. cbv iota. rewrite Ho. auto.
Qed.

Lemma pan_two_updates_equal_one_witness :
  lastPositionRef (panGesture.onUpdate 5 0 (panGesture.onUpdate 3 0 readyWorld))
  = lastPositionRef (panGesture.onUpdate 5 0 readyWorld).
Proof.
  exact (proj1 (pan_two_updates_equal_one readyWorld eq_refl)).
Defined.

(** From the accumulated orientation (0, 0.01), reached by one pan gesture
    of one unit to the right, the two updates turn the model to 0.06 about
    y and the single update to 0.060000000000000005. *)
Lemma pan_two_updates_differ_from_one :
  run 3 [ContextCreate (mkGL 400 300); PanUpdate 1 0; PanEnd] initialWorld
  = Some turnedWorld /\
  rotationRef turnedWorld = mkPosition 0 0.01 /\
  lastPositionRef turnedWorld = mkPosition 0 0 /\
  option_map rotationXY
    (currentModel (panGesture.onUpdate 5 0 (panGesture.onUpdate 3 0 turnedWorld)))
  = Some (mkPosition 0 0.06) /\
  option_map rotationXY (currentModel (panGesture.onUpdate 5 0 turnedWorld))
  = Some (mkPosition 0 0.060000000000000005) /\
  currentModel (panGesture.onUpdate 5 0 (panGesture.onUpdate 3 0 turnedWorld))
  <> currentModel (panGesture.onUpdate 5 0 turnedWorld).
Proof.
  split; [exact turnedWorld_reached|].
  split; [reflexivity|]. split; [reflexivity|].
  split; [vm_compute; reflexivity|]. split; [vm_compute; reflexivity|].
  intros H.
  apply (f_equal (option_map (fun o => e_y (obj_rotation o) =? 0.06))) in H.
  vm_compute in H. discriminate.
Qed.

(* ================================================================== *)
(** ** Scene manager: one model at a time *)
(* ================================================================== *)

Lemma attached_models_app l1 l2 :
  attached_models (l1 ++ l2) = attached_models l1 ++ attached_models l2.
Proof.
  induction l1 as [|n l1 IH]; [reflexivity|].
  destruct n; cbn; now rewrite ?IH.
Qed.

Lemma remove_child_none id l :
  attached_models l = [] -> attached_models (remove_child id l) = [].
Proof.
  induction l as [|n l IH]; [reflexivity|].
  destruct n; cbn; auto. discriminate.
Qed.

Lemma remove_child_only id l :
  attached_models l = [id] -> attached_models (remove_child id l) = [].
Proof.
  induction l as [|n l IH]; [discriminate|].
  destruct n; cbn; auto.
  intros [= -> H]. now rewrite Nat.eqb_refl.
Qed.

Lemma removeExisting_spec w :
  scene_ok w ->
  attachedModels (removeExisting w) = [] /\
  heap (removeExisting w) = heap w /\
  nextId (removeExisting w) = nextId w /\
  selectedItem (removeExisting w) = selectedItem w /\
  selectedColor (removeExisting w) = selectedColor w /\
  (sceneRef w = None -> sceneRef (removeExisting w) = None) /\
  (forall scene, sceneRef w = Some scene ->
     calls (removeExisting w)
     = calls w ++ match objectRef w with
                  | Some old => [SceneRemove old]
                  | None => []
                  end).
Proof.
  unfold scene_ok, attachedModels, removeExisting, scene_remove.
  intros Hok.
  destruct (objectRef w) as [old|] eqn:Ho, (sceneRef w) as [scene|] eqn:Hs;
    cbn; rewrite ?Hs; repeat split; try discriminate; auto.
  - destruct Hok as [H | (id & [= ->] & H)].
    + now apply remove_child_none.
    + now apply remove_child_only.
  - destruct Hok as [H | (id & [=] & _)]. exact H.
  - intros scene' _. now rewrite app_nil_r.
Qed.

Lemma scene_ok_ext w w' :
  sceneRef w' = sceneRef w -> objectRef w' = objectRef w ->
  scene_ok w -> scene_ok w'.
Proof. unfold scene_ok, attachedModels. now intros -> ->. Qed.

(** A tick of the render loop touches the frame handle and the call log
    only. *)
Lemma render_refs w :
  sceneRef (render w) = sceneRef w /\
  objectRef (render w) = objectRef w /\
  heap (render w) = heap w /\
  rendererRef (render w) = rendererRef w.
Proof.
  unfold render. cbn.
  destruct (rendererRef w) eqn:Hr, (sceneRef w) eqn:Hs, (cameraRef w) eqn:Hc;
    cbn; rewrite ?Hs, ?Hr; auto.
Qed.

Section Rebuild.

Variable fuel : nat.
Hypothesis fuel_enough : 3 <= fuel.

(** The rebuild on a world that has a scene: the previous model is
    removed, then the new one, built for the current selection, placed at
    the origin and unrotated, is added. *)
Lemma updateFurnitureModel_spec w scene :
  scene_ok w ->
  sceneRef w = Some scene ->
  exists w' built next,
    createFurnitureModel fuel (item_type (selectedItem w)) (selectedColor w)
      (nextId w) = Some (built, next) /\
    updateFurnitureModel fuel w = Some w' /\
    attachedModels w' = [nextId w] /\
    objectRef w' = Some (nextId w) /\
    currentModel w'
    = Some (mkObject3D (nextId w) (obj_children built) (mkVector3 0 0 0)
              (mkEuler 0 0 0)) /\
    calls w'
    = calls w
      ++ match objectRef w with Some old => [SceneRemove old] | None => [] end
      ++ [SceneAdd (ModelNode (nextId w))].
Proof.
  intros Hok Hs.
  destruct (removeExisting_spec w Hok) as (Hat & Hh & Hn & Hi & Hc & _ & Hcalls).
  specialize (Hcalls scene Hs).
  destruct (createAndAdd_total fuel fuel_enough (removeExisting w))
    as (built & next & Hb & Hid & Hw').
  rewrite Hi, Hc, Hn in Hb. rewrite Hn, Hh in Hw'. rewrite Hn in Hid.
  eexists. exists built, next. split; [exact Hb|].
  unfold updateFurnitureModel. rewrite Hs. split; [exact Hw'|].
  assert (Hs1 : exists scene1, sceneRef (removeExisting w) = Some scene1 /\
                               attached_models (scene_children scene1) = []).
  { unfold attachedModels in Hat. unfold removeExisting, scene_remove in *.
    destruct (objectRef w); rewrite Hs in *; cbn in *; eauto. }
  destruct Hs1 as (scene1 & Hs1 & Hat1).
  unfold attachedModels, currentModel, scene_add, update_object. cbn.
  rewrite Hs1. cbn. rewrite attached_models_app, Hat1.
  split; [reflexivity|]. split; [reflexivity|].
  rewrite !lookup_alter_eq, lookup_insert_eq. cbn.
  split; [now rewrite <- Hid|].
  rewrite Hcalls, <- app_assoc. reflexivity.
Qed.

Lemma updateFurnitureModel_scene_ok w w' :
  scene_ok w -> updateFurnitureModel fuel w = Some w' -> scene_ok w'.
Proof.
  intros Hok H. destruct (sceneRef w) as [scene|] eqn:Hs.
  - destruct (updateFurnitureModel_spec w scene Hok Hs)
      as (w1 & built & next & _ & Hw1 & Hat & Ho & _).
    rewrite Hw1 in H. injection H as <-. right. eauto.
  - unfold updateFurnitureModel in H. rewrite Hs in H. now injection H as <-.
Qed.

Lemma step_scene_ok e w w' : scene_ok w -> step fuel e w = Some w' -> scene_ok w'.
Proof.
  intros Hok. destruct e; cbn [step].
  - unfold onContextCreate.
    match goal with |- context [updateFurnitureModel fuel ?x] =>
      destruct (updateFurnitureModel fuel x) as [w1|] eqn:E end; [|discriminate].
    intros [= <-]. apply updateFurnitureModel_scene_ok in E.
    + destruct (render_refs w1) as (Hs & Ho & _).
      now apply (scene_ok_ext w1).
    + left. reflexivity.
  - intros [= <-]. destruct (render_refs w) as (Hs & Ho & _).
    now apply (scene_ok_ext w).
  - unfold selectItem. destruct (item_eqb _ _); [now intros [= <-]|].
    now apply updateFurnitureModel_scene_ok.
  - unfold selectColor. destruct (color_eqb _ _); [now intros [= <-]|].
    now apply updateFurnitureModel_scene_ok.
  - intros [= <-]. apply (scene_ok_ext w); [| |exact Hok];
      unfold panGesture.onUpdate;
      destruct (objectRef w) eqn:Ho; cbn; rewrite ?Ho; reflexivity.
  - intros [= <-]. apply (scene_ok_ext w); [| |exact Hok];
      unfold panGesture.onEnd;
      destruct (objectRef w) as [obj|] eqn:Ho; cbn; rewrite ?Ho; try reflexivity;
      destruct (heap w !! obj); cbn; rewrite ?Ho; reflexivity.
  - intros [= <-]. unfold pinchGesture.onStart.
    destruct (cameraRef w); exact Hok.
  - intros [= <-]. unfold pinchGesture.onUpdate.
    destruct (cameraRef w); exact Hok.
  - intros [= <-]. unfold pinchGesture.onEnd.
    destruct (cameraRef w); exact Hok.
Qed.

Lemma run_scene_ok es : forall w w',
  scene_ok w -> run fuel es w = Some w' -> scene_ok w'.
Proof.
  induction es as [|e es IH]; intros w w' Hok; cbn [run].
  - now intros [= <-].
  - destruct (step fuel e w) as [w1|] eqn:E; [|discriminate].
    apply IH. exact (step_scene_ok e w w1 Hok E).
Qed.

End Rebuild.

Lemma initialWorld_scene_ok : scene_ok initialWorld.
Proof. left. reflexivity. Qed.

Lemma scene_ok_at_most_one w : scene_ok w -> length (attachedModels w) <= 1.
Proof. intros [-> | (id & _ & ->)]; cbn; lia. Qed.

(** C6: the rebuild step, in any state the component can reach that has a
    scene: the previous model, if any, is removed first, the new model is
    set to the origin and to no rotation, and then it is added; the scene
    holds at most one model before, none between the two calls and exactly
    the new one after, and in the call log the removal precedes the
    addition. *)
Theorem replaceModel_detaches_then_attaches
    (fuel : nat) (es : list Event) (w : World) (scene : Scene) :
  3 <= fuel ->
  run fuel es initialWorld = Some w ->
  sceneRef w = Some scene ->
  length (attachedModels w) <= 1 /\
  attachedModels (removeExisting w) = [] /\
  exists w' model,
    updateFurnitureModel fuel w = Some w' /\
    attachedModels w' = [obj_id model] /\
    objectRef w' = Some (obj_id model) /\
    currentModel w' = Some model /\
    obj_position model = mkVector3 0 0 0 /\
    obj_rotation model = mkEuler 0 0 0 /\
    calls w'
    = calls w
      ++ match objectRef w with Some old => [SceneRemove old] | None => [] end
      ++ [SceneAdd (ModelNode (obj_id model))].
Proof.
  intros Hfuel Hrun Hs.
  pose proof (run_scene_ok fuel Hfuel es _ _ initialWorld_scene_ok Hrun) as Hok.
  split; [now apply scene_ok_at_most_one|].
  split; [apply (removeExisting_spec w Hok)|].
  destruct (updateFurnitureModel_spec fuel Hfuel w scene Hok Hs)
    as (w' & built & next & _ & Hw' & Hat & Ho & Hm & Hc).
  exists w', (mkObject3D (nextId w) (obj_children built) (mkVector3 0 0 0)
                (mkEuler 0 0 0)).
  split; [exact Hw'|].
  split; [exact Hat|]. split; [exact Ho|]. split; [exact Hm|].
  split; [reflexivity|]. split; [reflexivity|]. exact Hc.
Qed.

Lemma replaceModel_detaches_then_attaches_witness :
  length (attachedModels readyWorld) <= 1 /\
  attachedModels (removeExisting readyWorld) = [] /\
  exists w' model,
    updateFurnitureModel 3 readyWorld = Some w' /\
    attachedModels w' = [obj_id model] /\
    objectRef w' = Some (obj_id model) /\
    currentModel w' = Some model /\
    obj_position model = mkVector3 0 0 0 /\
    obj_rotation model = mkEuler 0 0 0 /\
    calls w'
    = calls readyWorld
      ++ match objectRef readyWorld with
         | Some old => [SceneRemove old]
         | None => []
         end
      ++ [SceneAdd (ModelNode (obj_id model))].
Proof.
  apply (replaceModel_detaches_then_attaches 3 [ContextCreate (mkGL 400 300)]
           readyWorld readyScene);
    [lia | vm_compute; reflexivity | reflexivity].
Defined.

(* ================================================================== *)
(** ** Missing references *)
(* ================================================================== *)

(** C10: a pan update with no model attached and a pinch update with no
    camera return the world as it was; a tick of the render loop with the
    renderer, the scene or the camera missing issues no render call and
    leaves the controller's state, the scene, the model reference and the
    model store as they were (it still requests the next frame and signals
    the end of the frame). *)
Theorem missing_references_are_skipped
    (w : World) (translationX translationY scale : number) :
  (objectRef w = None -> panGesture.onUpdate translationX translationY w = w) /\
  (cameraRef w = None -> pinchGesture.onUpdate scale w = w) /\
  (rendererRef w = None \/ sceneRef w = None \/ cameraRef w = None ->
   controllerState (render w) = controllerState w /\
   sceneRef (render w) = sceneRef w /\
   objectRef (render w) = objectRef w /\
   heap (render w) = heap w /\
   calls (render w)
   = calls w ++ [RequestAnimationFrame (nextHandle w); EndFrameEXP]).
Proof.
  split; [|split].
  - intros H. unfold panGesture.onUpdate. now rewrite H.
  - intros H. unfold pinchGesture.onUpdate. now rewrite H.
  - intros H. split; [apply render_controller|].
    destruct (render_refs w) as (Hs & Ho & Hh & _).
    split; [exact Hs|]. split; [exact Ho|]. split; [exact Hh|].
    unfold render. cbn.
    destruct (rendererRef w) eqn:Hr, (sceneRef w) eqn:Hsc, (cameraRef w) eqn:Hc;
      cbn; rewrite <- ?app_assoc; try reflexivity.
    destruct H as [H | [H | H]]; discriminate.
Qed.

Lemma missing_references_are_skipped_witness :
  panGesture.onUpdate 10 20 initialWorld = initialWorld /\
  pinchGesture.onUpdate 2 initialWorld = initialWorld /\
  calls (render initialWorld) = [RequestAnimationFrame 1; EndFrameEXP].
Proof.
  pose proof (missing_references_are_skipped initialWorld 10 20 2) as (H1 & H2 & H3).
  split; [exact (H1 eq_refl)|]. split; [exact (H2 eq_refl)|].
  destruct (H3 (or_introl eq_refl)) as (_ & _ & _ & _ & H). exact H.
Defined.

(* ================================================================== *)
(** ** More on the model factory *)
(* ================================================================== *)

(** X1: for the table and any colour the factory returns five meshes with
    one shared material: the 2 x 0.1 x 1.5 top at height 0.8 and four
    0.1 x 0.8 x 0.1 legs at height 0.4 on the corners (+-0.9, +-0.65), in
    the order the stepped loops visit them; each loop runs its body exactly
    twice. *)
Theorem table_has_five_parts (fuel : nat) (color : ColorOption) (next : ObjId) :
  3 <= fuel ->
  exists model,
    createFurnitureModel fuel table color next = Some (model, S (S next)) /\
    map mesh_shape (obj_children model)
    = [ (BoxGeometry 2 0.1 1.5, mkVector3 0 0.8 0, mkEuler 0 0 0);
        (BoxGeometry 0.1 0.8 0.1, mkVector3 (-0.9) 0.4 (-0.65), mkEuler 0 0 0);
        (BoxGeometry 0.1 0.8 0.1, mkVector3 (-0.9) 0.4 0.65, mkEuler 0 0 0);
        (BoxGeometry 0.1 0.8 0.1, mkVector3 0.9 0.4 (-0.65), mkEuler 0 0 0);
        (BoxGeometry 0.1 0.8 0.1, mkVector3 0.9 0.4 0.65, mkEuler 0 0 0) ] /\
    Forall (fun m => mesh_material m = coloredMaterial color next)
           (obj_children model) /\
    (forall (A : Type) (body : number -> A -> option A) (acc : A),
        for_le fuel (-0.9) 0.9 1.8 body acc
        = match body (-0.9) acc with
          | Some acc' => body 0.9 acc'
          | None => None
          end) /\
    (forall (A : Type) (body : number -> A -> option A) (acc : A),
        for_le fuel (-0.65) 0.65 1.3 body acc
        = match body (-0.65) acc with
          | Some acc' => body 0.65 acc'
          | None => None
          end).
Proof.
  intros Hfuel. eexists. split.
  { unfold createFurnitureModel. rewrite for_le_table_x by exact Hfuel.
    rewrite !for_le_table_z by exact Hfuel. reflexivity. }
  split; [reflexivity|]. split; [repeat constructor|].
  split; intros A body acc; [now apply for_le_table_x | now apply for_le_table_z].
Qed.

Lemma table_has_five_parts_witness :
  exists model,
    createFurnitureModel 3 table (mkColorOption "Red" 0xb22222) 0%nat
    = Some (model, 2%nat) /\
    length (obj_children model) = 5%nat.
Proof.
  destruct (table_has_five_parts 3 (mkColorOption "Red" 0xb22222) 0%nat)
    as (model & Hm & Hshape & _); [lia|].
  exists model. split; [exact Hm|].
  rewrite <- (length_map mesh_shape), Hshape. reflexivity.
Defined.

(** The lamp needs no loop, so it is built whatever the fuel: a base, a
    pole and a shade turned by pi about x, all three with the coloured
    material, then the bulb, a sphere of radius 0.1 at height 1.4, with its
    own material. *)
Lemma createFurnitureModel_lamp (fuel : nat) (color : ColorOption) (next : ObjId) :
  exists model,
    createFurnitureModel fuel lamp color next = Some (model, S (S (S next))) /\
    map mesh_shape (obj_children model)
    = [ (CylinderGeometry 0.3 0.4 0.1 (Some 32%Z), mkVector3 0 0.05 0,
         mkEuler 0 0 0);
        (CylinderGeometry 0.03 0.03 1.5 (Some 32%Z), mkVector3 0 0.8 0,
         mkEuler 0 0 0);
        (ConeGeometry 0.3 0.5 32 1 true, mkVector3 0 1.6 0,
         mkEuler JS.Math_PI 0 0);
        (SphereGeometry 0.1 16 16, mkVector3 0 1.4 0, mkEuler 0 0 0) ] /\
    map mesh_material (obj_children model)
    = [ coloredMaterial color next; coloredMaterial color next;
        coloredMaterial color next; bulbMaterial next ].
Proof. eexists. repeat split. Qed.

Section ColourIndependence.

Lemma same_shape_add m1 m2 g1 g2 :
  mesh_but_colour m1 = mesh_but_colour m2 -> same_shape g1 g2 ->
  same_shape (group_add m1 g1) (group_add m2 g2).
Proof.
  intros Hm (Hid & Hc & Hp & Hr). unfold same_shape, group_add. cbn.
  rewrite !map_app, Hc. cbn. now rewrite Hm.
Qed.

(** A stepped loop keeps two related accumulators related, and stops or
    runs out of fuel on both sides alike. *)
Lemma for_le_same_shape fuel hi step body1 body2 :
  (forall x g1 g2, same_shape g1 g2 -> same_shape_opt (body1 x g1) (body2 x g2)) ->
  forall x g1 g2, same_shape g1 g2 ->
    same_shape_opt (for_le fuel x hi step body1 g1) (for_le fuel x hi step body2 g2).
Proof.
  intros Hbody. induction fuel as [|k IH]; intros x g1 g2 Hg; cbn [for_le].
  - exact I.
  - destruct (x <=? hi); [|exact Hg].
    specialize (Hbody x g1 g2 Hg).
    destruct (body1 x g1) as [g1'|], (body2 x g2) as [g2'|]; cbn in Hbody;
      try contradiction; [|exact I].
    now apply IH.
Qed.

(** Relates the two leg loops of a goal about two builds that differ in
    the colour only. *)
Ltac relate_leg_loops fuel :=
  match goal with
  | |- context [match for_le fuel ?x ?hi ?st ?b1 ?a1 with _ => _ end] =>
    match goal with
    | |- context [match for_le fuel x hi st ?b2 ?a2 with _ => _ end] =>
      tryif constr_eq b1 b2 then fail else
        let H := fresh "H" in
        assert (H : same_shape_opt (for_le fuel x hi st b1 a1)
                                   (for_le fuel x hi st b2 a2));
        [ apply for_le_same_shape;
          [ intros ? ? ? ?; apply for_le_same_shape; [|assumption];
            intros ? ? ? ?; cbn; apply same_shape_add; [reflexivity|assumption]
          | repeat (apply same_shape_add; [reflexivity|]); repeat split ]
        | destruct (for_le fuel x hi st b1 a1), (for_le fuel x hi st b2 a2);
          cbn in H; auto ]
    end
  end.

Lemma createFurnitureModel_same_shape fuel type c1 c2 next :
  match createFurnitureModel fuel type c1 next,
        createFurnitureModel fuel type c2 next with
  | Some (g1, n1), Some (g2, n2) => same_shape g1 g2 /\ n1 = n2
  | None, None => True
  | _, _ => False
  end.
Proof.
  destruct type; unfold createFurnitureModel.
  - relate_leg_loops fuel.
  - relate_leg_loops fuel.
  - split; [|reflexivity]. repeat split.
Qed.

End ColourIndependence.

(** X2: building the same kind in another colour gives the same group but
    for the colour of the materials: the same identities, the same
    geometries, positions and rotations in the same order, the same kinds
    of material; and the build stops for one colour exactly when it stops
    for the other. *)
Theorem recolouring_changes_colour_only
    (fuel : nat) (type : FurnitureType) (c1 c2 : ColorOption) (next : ObjId)
    (m1 : Object3D) (n1 : ObjId) :
  createFurnitureModel fuel type c1 next = Some (m1, n1) ->
  exists m2,
    createFurnitureModel fuel type c2 next = Some (m2, n1) /\
    obj_id m2 = obj_id m1 /\
    map mesh_but_colour (obj_children m2) = map mesh_but_colour (obj_children m1) /\
    obj_position m2 = obj_position m1 /\
    obj_rotation m2 = obj_rotation m1.
Proof.
  intros H1. pose proof (createFurnitureModel_same_shape fuel type c1 c2 next) as H.
  rewrite H1 in H.
  destruct (createFurnitureModel fuel type c2 next) as [[m2 n2]|]; [|contradiction].
  destruct H as ((Hid & Hc & Hp & Hr) & <-).
  exists m2. auto.
Qed.

Lemma recolouring_changes_colour_only_witness :
  exists m2,
    createFurnitureModel 3 chair (mkColorOption "Blue" 0x4169e1) 0%nat
    = Some (m2, 2%nat) /\
    map mesh_but_colour (obj_children m2)
    = map mesh_but_colour (obj_children readyChair).
Proof.
  destruct (recolouring_changes_colour_only 3 chair
              (mkColorOption "White" 0xffffff) (mkColorOption "Blue" 0x4169e1)
              0%nat readyChair 2%nat eq_refl) as (m2 & H & _ & Hc & _).
  exists m2. split; [exact H | exact Hc].
Defined.

(** X3: a build takes its identities from the counter it is given and
    returns the counter past them: the group gets [next], every material
    an identity strictly between [next] and the returned counter; so a
    build started at the returned counter shares no material instance and
    no group identity with this one. *)
Theorem builds_use_fresh_identities
    (fuel : nat) (type type' : FurnitureType) (color color' : ColorOption)
    (next : ObjId) :
  3 <= fuel ->
  exists model next' model' next'',
    createFurnitureModel fuel type color next = Some (model, next') /\
    createFurnitureModel fuel type' color' next' = Some (model', next'') /\
    obj_id model = next /\ next < next' /\
    Forall (fun m => next < mat_id (mesh_material m) < next') (obj_children model) /\
    obj_id model' <> obj_id model /\
    forall m m', In m (obj_children model) -> In m' (obj_children model') ->
                 mat_id (mesh_material m) <> mat_id (mesh_material m').
Proof.
  intros Hfuel.
  destruct (createFurnitureModel_materials fuel Hfuel type color next)
    as (model & Hm & Hid & _ & Hall).
  set (next' := match type with lamp => S (S (S next)) | _ => S (S next) end) in *.
  destruct (createFurnitureModel_materials fuel Hfuel type' color' next')
    as (model' & Hm' & Hid' & _ & Hall').
  assert (Hids : Forall (fun m => next < mat_id (mesh_material m) < next')
                        (obj_children model)).
  { apply Forall_forall. intros m Hin.
    destruct (proj1 (Forall_forall _ _) Hall m Hin) as [-> | [-> ->]];
      subst next'; try destruct type; cbn; lia. }
  assert (Hids' : Forall (fun m => next' < mat_id (mesh_material m))
                         (obj_children model')).
  { apply Forall_forall. intros m Hin.
    destruct (proj1 (Forall_forall _ _) Hall' m Hin) as [-> | [_ ->]]; cbn; lia. }
  exists model, next', model'. eexists.
  split; [exact Hm|]. split; [exact Hm'|]. split; [exact Hid|].
  split; [subst next'; destruct type; lia|]. split; [exact Hids|].
  split; [rewrite Hid, Hid'; subst next'; destruct type; lia|].
  intros m m' Hin Hin'.
  rewrite List.Forall_forall in Hids, Hids'.
  specialize (Hids m Hin). specialize (Hids' m' Hin'). lia.
Qed.

Lemma builds_use_fresh_identities_witness :
  exists model next' model' next'',
    createFurnitureModel 3 lamp (mkColorOption "White" 0xffffff) 0%nat
    = Some (model, next') /\
    createFurnitureModel 3 chair (mkColorOption "White" 0xffffff) next'
    = Some (model', next'') /\
    obj_id model' <> obj_id model.
Proof.
  destruct (builds_use_fresh_identities 3 lamp chair
              (mkColorOption "White" 0xffffff) (mkColorOption "White" 0xffffff)
              0%nat) as (m & n' & m' & n'' & H1 & H2 & _ & _ & _ & H3 & _); [lia|].
  exists m, n', m', n''. auto.
Defined.

(* ================================================================== *)
(** ** More on the gestures *)
(* ================================================================== *)

Lemma pinch_onUpdate_twice s1 s2 w :
  pinchGesture.onUpdate s2 (pinchGesture.onUpdate s1 w) = pinchGesture.onUpdate s2 w.
Proof.
  unfold pinchGesture.onUpdate.
  destruct (cameraRef w) as [c|] eqn:Hc; cbn; rewrite ?Hc; reflexivity.
Qed.

(** X4: within one pinch gesture the updates do not compound: after any
    number of updates the state is the one the last update alone gives,
    because each update divides the anchor, which updates leave alone. *)
Theorem pinch_updates_last_wins (scales : list number) (scale : number) (w : World) :
  pinch_updates (scales ++ [scale]) w = pinchGesture.onUpdate scale w /\
  initialCameraZRef (pinch_updates scales w) = initialCameraZRef w.
Proof.
  unfold pinch_updates. revert w.
  induction scales as [|s scales IH]; intros w; cbn [fold_left app].
  - split; reflexivity.
  - destruct (IH (pinchGesture.onUpdate s w)) as [IH1 IH2].
    rewrite IH1, IH2, pinch_onUpdate_twice. split; [reflexivity|].
    unfold pinchGesture.onUpdate. now destruct (cameraRef w).
Qed.

(** X5: a whole pinch gesture (start, update with scale [s], end) on a
    world with a camera at distance [d] leaves the camera at
    [clamp(d / s, 1.5, 5)] and the anchor at that same distance, whatever
    the anchor was before: the gesture starts from the live distance. *)
Theorem pinch_gesture_from_live_distance
    (w : World) (camera : PerspectiveCamera) (scale : number) :
  cameraRef w = Some camera ->
  let d := v_z (cam_position camera) in
  let w' := pinchGesture.onEnd (pinchGesture.onUpdate scale (pinchGesture.onStart w)) in
  cameraDistance w' = Some (spec_clamp (d / scale) 1.5 5) /\
  initialCameraZRef w' = spec_clamp (d / scale) 1.5 5 /\
  rotationRef w' = rotationRef w /\
  currentModel w' = currentModel w.
Proof.
  intros Hc d w'. subst d w'.
  unfold pinchGesture.onEnd, pinchGesture.onUpdate, pinchGesture.onStart.
  rewrite Hc. cbn. rewrite Hc. cbn. rewrite clamp_code_spec.
  split; [reflexivity|]. split; [reflexivity|]. split; reflexivity.
Qed.

Lemma pinch_gesture_from_live_distance_witness :
  cameraDistance
    (pinchGesture.onEnd (pinchGesture.onUpdate 0.5 (pinchGesture.onStart readyWorld)))
  = Some (spec_clamp (3 / 0.5) 1.5 5).
Proof.
  exact (proj1 (pinch_gesture_from_live_distance readyWorld
                  (mkCamera 75 (400 / 300) 0.1 1000 (mkVector3 0 1 3)) 0.5
                  eq_refl)).
Defined.

Lemma binary_round_aux_sign sx mx ex lx :
  (0 <= mx)%Z ->
  binary_round_aux prec emax sx mx ex lx = S754_zero sx \/
  binary_round_aux prec emax sx mx ex lx = S754_infinity sx \/
  exists m e, binary_round_aux prec emax sx mx ex lx = S754_finite sx m e.
Proof.
  intros H. unfold binary_round_aux.
  pose proof (shr_fexp_nonneg mx ex lx H) as H1.
  destruct (shr_fexp prec emax mx ex lx) as [mrs' e']. cbn [fst] in H1.
  pose proof (shr_fexp_nonneg _ e' loc_Exact
                (round_nearest_even_nonneg _ (loc_of_shr_record mrs') H1)) as H2.
  destruct (shr_fexp prec emax _ e' loc_Exact) as [mrs'' e'']. cbn [fst] in H2.
  destruct (shr_m mrs'') as [|p|p]; [auto| |lia].
  destruct (Z.leb _ _); eauto.
Qed.

(** Dividing a distance of the zoom range by a negative scale gives a
    negative quotient or [-0]. *)
Lemma div_by_negative a s :
  in_range a = true -> (s <? 0) = true -> (a / s <? 1.5) = true.
Proof.
  intros Ha Hs. apply in_range_finite in Ha as (m & e & Ha & _).
  rewrite FloatAxioms.ltb_spec in *. rewrite FloatAxioms.div_spec, Ha.
  change (Prim2SF 0) with (S754_zero false) in Hs.
  change (Prim2SF 1.5) with (S754_finite false 6755399441055744 (-52)).
  unfold SF64div.
  destruct (Prim2SF s) as [[]|[]| |[] ms es]; try discriminate; cbn [SFdiv xorb].
  - reflexivity.
  - pose proof (SFdiv_core_binary_nonneg m e ms es) as H.
    destruct (SFdiv_core_binary prec emax (Zpos m) e (Zpos ms) es) as [[mz ez] lz].
    cbn [fst] in H.
    destruct (binary_round_aux_sign true mz ez lz H) as [-> | [-> | (m' & e' & ->)]];
      reflexivity.
Qed.

Lemma div_by_special a :
  in_range a = true ->
  a / 0 = infinity /\ a / neg_zero = neg_infinity /\ a / infinity = 0.
Proof.
  intros Ha. apply in_range_finite in Ha as (m & e & Ha & _).
  repeat split; apply Prim2SF_inj; rewrite FloatAxioms.div_spec, Ha; reflexivity.
Qed.

(** X6: the pinch scales that are not a proper ratio, for an anchor within
    [1.5, 5]: a scale of 0 zooms out to 5; a negative scale, [-0] or
    [+infinity] zooms in to 1.5. *)
Theorem pinch_degenerate_scales
    (w : World) (camera : PerspectiveCamera) (scale : number) :
  cameraRef w = Some camera ->
  in_range (initialCameraZRef w) = true ->
  (scale = 0 -> cameraDistance (pinchGesture.onUpdate scale w) = Some 5) /\
  ((scale <? 0) = true \/ scale = neg_zero \/ scale = infinity ->
   cameraDistance (pinchGesture.onUpdate scale w) = Some 1.5).
Proof.
  intros Hc Ha. rewrite (pinch_onUpdate_distance w camera scale Hc).
  destruct (div_by_special _ Ha) as (H0 & Hn & Hi). split.
  - intros ->. rewrite H0. reflexivity.
  - intros [Hs | [-> | ->]].
    + unfold spec_clamp. now rewrite (div_by_negative _ _ Ha Hs).
    + rewrite Hn. reflexivity.
    + rewrite Hi. reflexivity.
Qed.

Lemma pinch_degenerate_scales_witness :
  cameraDistance (pinchGesture.onUpdate 0 readyWorld) = Some 5 /\
  cameraDistance (pinchGesture.onUpdate (-3) readyWorld) = Some 1.5.
Proof.
  split.
  - exact (proj1 (pinch_degenerate_scales readyWorld
                    (mkCamera 75 (400 / 300) 0.1 1000 (mkVector3 0 1 3)) 0
                    eq_refl eq_refl) eq_refl).
  - exact (proj2 (pinch_degenerate_scales readyWorld
                    (mkCamera 75 (400 / 300) 0.1 1000 (mkVector3 0 1 3)) (-3)
                    eq_refl eq_refl) (or_introl eq_refl)).
Defined.

(** X7: the pan handlers and the pinch handlers commute: handling a pan
    event and then a pinch event gives the same state as handling them the
    other way round, so recognising the two gestures simultaneously raises
    no question of order. *)
Theorem pan_and_pinch_commute (fuel : nat) (e1 e2 : Event) (w : World) :
  is_pan e1 = true -> is_pinch e2 = true ->
  run fuel [e1; e2] w = run fuel [e2; e1] w.
Proof.
  intros H1 H2. destruct e1; try discriminate; destruct e2; try discriminate;
    cbn [run step]; f_equal;
    unfold panGesture.onUpdate, panGesture.onEnd,
      pinchGesture.onStart, pinchGesture.onUpdate, pinchGesture.onEnd;
    destruct (objectRef w) as [obj|] eqn:Ho, (cameraRef w) as [c|] eqn:Hc;
    cbn; rewrite ?Ho, ?Hc; try reflexivity;
    destruct (heap w !! obj) eqn:Hh; cbn; rewrite ?Ho, ?Hc; reflexivity.
Qed.

Lemma pan_and_pinch_commute_witness :
  run 3 [PanUpdate 10 20; PinchUpdate 2] readyWorld
  = run 3 [PinchUpdate 2; PanUpdate 10 20] readyWorld.
Proof.
  exact (pan_and_pinch_commute 3 (PanUpdate 10 20) (PinchUpdate 2) readyWorld
           eq_refl eq_refl).
Defined.

(* ================================================================== *)
(** ** The states the component can reach *)
(* ================================================================== *)

Lemma render_fields w :
  selectedItem (render w) = selectedItem w /\
  selectedColor (render w) = selectedColor w /\
  isLoading (render w) = isLoading w /\
  nextId (render w) = nextId w /\
  animationRef (render w) = Some (nextHandle w) /\
  nextHandle (render w) = S (nextHandle w) /\
  calls (render w)
  = calls w
    ++ RequestAnimationFrame (nextHandle w)
       :: match rendererRef w, sceneRef w, cameraRef w with
          | Some _, Some scene, Some camera => [RendererRender scene camera]
          | _, _, _ => []
          end
    ++ [EndFrameEXP].
Proof.
  unfold render. cbn.
  destruct (rendererRef w), (sceneRef w), (cameraRef w); cbn;
    rewrite <- ?app_assoc; repeat split.
Qed.

Lemma render_controller_fields w :
  rotationRef (render w) = rotationRef w /\
  lastPositionRef (render w) = lastPositionRef w /\
  initialCameraZRef (render w) = initialCameraZRef w /\
  cameraRef (render w) = cameraRef w.
Proof.
  pose proof (render_controller w) as R. unfold controllerState in R.
  now injection R.
Qed.

Section RebuildFields.

Variable fuel : nat.
Hypothesis fuel_enough : 3 <= fuel.

(** Every field of the world after a rebuild on a world with a scene. *)
Lemma updateFurnitureModel_fields w scene :
  sceneRef w = Some scene ->
  exists w' built next,
    createFurnitureModel fuel (item_type (selectedItem w)) (selectedColor w)
      (nextId w) = Some (built, next) /\
    updateFurnitureModel fuel w = Some w' /\
    sceneRef w'
    = Some (mkScene (match objectRef w with
                     | Some old => remove_child old (scene_children scene)
                     | None => scene_children scene
                     end ++ [ModelNode (nextId w)])) /\
    objectRef w' = Some (nextId w) /\
    heap w' !! nextId w
    = Some (mkObject3D (nextId w) (obj_children built) (mkVector3 0 0 0)
              (mkEuler 0 0 0)) /\
    calls w'
    = calls w
      ++ match objectRef w with Some old => [SceneRemove old] | None => [] end
      ++ [SceneAdd (ModelNode (nextId w))] /\
    controllerState w' = controllerState w /\
    rendererRef w' = rendererRef w /\
    isLoading w' = isLoading w /\
    selectedItem w' = selectedItem w /\
    selectedColor w' = selectedColor w /\
    animationRef w' = animationRef w /\
    nextHandle w' = nextHandle w.
Proof.
  intros Hs.
  destruct (createAndAdd_total fuel fuel_enough (removeExisting w))
    as (built & next & Hb & Hid & Hw').
  assert (Hrem : selectedItem (removeExisting w) = selectedItem w /\
                 selectedColor (removeExisting w) = selectedColor w /\
                 nextId (removeExisting w) = nextId w).
  { unfold removeExisting, scene_remove. destruct (objectRef w); rewrite ?Hs; auto. }
  destruct Hrem as (Hi & Hc & Hn). rewrite Hi, Hc, Hn in Hb. rewrite Hn in Hid, Hw'.
  eexists. exists built, next. split; [exact Hb|].
  unfold updateFurnitureModel. rewrite Hs. split; [exact Hw'|].
  unfold removeExisting, scene_remove, scene_add, update_object, controllerState.
  destruct (objectRef w) as [old|]; rewrite ?Hs; cbn; rewrite ?Hs; cbn;
    rewrite !lookup_alter_eq, lookup_insert_eq; cbn;
    unfold obj_set_rotation, obj_set_position; cbn; rewrite Hid;
    rewrite <- ?app_assoc; repeat split.
Qed.

End RebuildFields.

Lemma onContextCreate_fields fuel gl w :
  3 <= fuel ->
  exists w', onContextCreate fuel gl w = Some w' /\ context_created fuel gl w w'.
Proof.
  intros Hfuel. unfold onContextCreate, context_created.
  match goal with |- context [updateFurnitureModel fuel ?x] =>
    destruct (updateFurnitureModel_fields fuel Hfuel x (mkScene base_nodes) eq_refl)
      as (w1 & built & next & Hb & Hu & Hs1 & Ho1 & Hh1 & Hc1 & Hcs & Hr1 & _ & Hi1
          & Hcol1 & Han1 & Hnh1)
  end.
  rewrite Hu. cbn in Hb, Hs1, Ho1, Hh1, Hc1, Hcs, Hr1, Hi1, Hcol1, Han1, Hnh1.
  assert (Hs1' : sceneRef w1 = Some (mkScene (base_nodes ++ [ModelNode (nextId w)]))).
  { rewrite Hs1. now destruct (objectRef w). }
  clear Hs1.
  unfold controllerState in Hcs. cbn in Hcs. injection Hcs as Hrot Hlast Hanc Hcam.
  destruct (render_fields w1) as (Ri & Rc & _ & _ & Ra & Rh & Rcalls).
  destruct (render_refs w1) as (Rs & Ro & Rheap & Rr).
  destruct (render_controller_fields w1) as (Rrot & Rlast & Ranc & Rcam).
  exists (set_isLoading false (render w1)). split; [reflexivity|].
  exists built, next. split; [exact Hb|]. unfold set_isLoading.
  cbn [sceneRef cameraRef rendererRef objectRef heap isLoading selectedItem
       selectedColor rotationRef lastPositionRef initialCameraZRef animationRef
       nextHandle calls].
  rewrite Rs, Rcam, Rr, Ro, Rheap, Ri, Rc, Rrot, Rlast, Ranc, Ra, Rh, Rcalls.
  rewrite Hs1', Hcam, Hr1, Ho1, Hh1, Hi1, Hcol1, Hrot, Hlast, Hanc, Hnh1, Hc1.
  repeat (split; [reflexivity|]).
  rewrite <- !app_assoc. reflexivity.
Qed.

(** X8: what creating the GL context sets up, from any state: a renderer
    of the buffer's size, a scene holding the ambient light, the
    directional light, the grid and the model built for the current
    selection, a camera at (0, 1, 3) with aspect width / height, the
    loading flag cleared, the gesture state untouched; the calls made are
    the three additions, the removal of the previous model if there was
    one, the addition of the model, and one first frame that already draws
    the model. *)
Theorem onContextCreate_sets_up_scene
    (fuel : nat) (gl : ExpoWebGLRenderingContext) (w : World) :
  3 <= fuel ->
  exists w', onContextCreate fuel gl w = Some w' /\ context_created fuel gl w w'.
Proof. apply onContextCreate_fields. Qed.

Lemma onContextCreate_sets_up_scene_witness :
  exists w',
    onContextCreate 3 (mkGL 400 300) initialWorld = Some w' /\
    sceneRef w' = Some (mkScene (base_nodes ++ [ModelNode 0])) /\
    isLoading w' = false.
Proof.
  destruct (onContextCreate_sets_up_scene 3 (mkGL 400 300) initialWorld)
    as (w' & Hw & _ & _ & _ & Hs & _ & _ & _ & _ & Hl & _); [lia|].
  exists w'. auto.
Defined.

Lemma last_requested_from_app acc l l' :
  last_requested_from acc (l ++ l')
  = last_requested_from (last_requested_from acc l) l'.
Proof.
  revert acc. induction l as [|c l IH]; intros acc; [reflexivity|].
  destruct c; cbn; apply IH.
Qed.

Lemma remove_child_base id :
  remove_child id (base_nodes ++ [ModelNode id]) = base_nodes.
Proof. cbn. now rewrite Nat.eqb_refl. Qed.

(** The fields a gesture handler leaves alone. *)
Lemma gesture_fields fuel e w w' :
  is_pan e = true \/ is_pinch e = true ->
  step fuel e w = Some w' ->
  sceneRef w' = sceneRef w /\ rendererRef w' = rendererRef w /\
  objectRef w' = objectRef w /\ isLoading w' = isLoading w /\
  selectedItem w' = selectedItem w /\ selectedColor w' = selectedColor w /\
  animationRef w' = animationRef w /\ nextHandle w' = nextHandle w /\
  calls w' = calls w /\ nextId w' = nextId w.
Proof.
  intros He. destruct e; cbn in He; try (destruct He; discriminate);
    cbn [step]; intros [= <-];
    unfold panGesture.onUpdate, panGesture.onEnd,
      pinchGesture.onStart, pinchGesture.onUpdate, pinchGesture.onEnd;
    try (destruct (objectRef w) as [obj|] eqn:Ho; cbn; rewrite ?Ho;
         try (destruct (heap w !! obj); cbn; rewrite ?Ho); repeat split; fail);
    destruct (cameraRef w); repeat split.
Qed.

Lemma updateFurnitureModel_no_scene fuel w :
  sceneRef w = None -> updateFurnitureModel fuel w = Some w.
Proof. intros H. unfold updateFurnitureModel. now rewrite H. Qed.

Section Reachable.

Variable fuel : nat.
Hypothesis fuel_enough : 3 <= fuel.

Lemma step_not_started e w w' :
  is_ContextCreate e = false -> not_started w -> step fuel e w = Some w' ->
  not_started w'.
Proof.
  intros He (Hs & Hc & Hr & Ho & Hh & Hl & Hrot & Hlast & Ha & Hcalls).
  destruct e; try discriminate; cbn [step].
  - intros [= <-].
    destruct (render_fields w) as (_ & _ & Rl & _ & _ & _ & Rcalls).
    destruct (render_refs w) as (Rs & Ro & Rh & Rr).
    destruct (render_controller_fields w) as (Rrot & Rlast & Ra & Rc).
    unfold not_started.
    rewrite Rs, Rc, Rr, Ro, Rh, Rl, Rrot, Rlast, Ra, Rcalls, Hr.
    repeat (split; [assumption || reflexivity|]).
    rewrite existsb_app, Hcalls. reflexivity.
  - unfold selectItem. destruct (item_eqb _ _).
    + intros [= <-]. repeat split; assumption.
    + rewrite updateFurnitureModel_no_scene by exact Hs.
      intros [= <-]. repeat split; assumption.
  - unfold selectColor. destruct (color_eqb _ _).
    + intros [= <-]. repeat split; assumption.
    + rewrite updateFurnitureModel_no_scene by exact Hs.
      intros [= <-]. repeat split; assumption.
  - intros [= <-]. unfold panGesture.onUpdate. rewrite Ho.
    repeat split; assumption.
  - intros [= <-]. unfold panGesture.onEnd. rewrite Ho.
    repeat split; assumption.
  - intros [= <-]. unfold pinchGesture.onStart. rewrite Hc.
    repeat split; assumption.
  - intros [= <-]. unfold pinchGesture.onUpdate. rewrite Hc.
    repeat split; assumption.
  - intros [= <-]. unfold pinchGesture.onEnd. rewrite Hc.
    repeat split; assumption.
Qed.

Lemma context_created_started gl w w' :
  context_created fuel gl w w' -> started fuel w'.
Proof.
  intros (built & next & Hb & Hs & Hc & Hr & Ho & Hh & Hl & Hi & Hcol & _).
  unfold started. do 3 eexists. exists (mkObject3D (nextId w) (obj_children built)
                                          (mkVector3 0 0 0) (mkEuler 0 0 0)).
  exists built, next.
  rewrite Hi, Hcol. repeat (split; [eassumption || reflexivity|]). reflexivity.
Qed.

Lemma rebuild_started w0 w :
  started fuel w0 ->
  sceneRef w = sceneRef w0 -> objectRef w = objectRef w0 ->
  cameraRef w = cameraRef w0 -> rendererRef w = rendererRef w0 ->
  isLoading w = isLoading w0 ->
  forall w', updateFurnitureModel fuel w = Some w' -> started fuel w'.
Proof.
  intros (id & camera & renderer & model & built0 & next0 & Hs & Hc & Hr & Ho & _
          & Hl & _ & _ & _ & _ & _ & Hcam) Es Eo Ec Er El w' Hw'.
  rewrite <- Es in Hs. rewrite <- Eo in Ho. rewrite <- Ec in Hc.
  rewrite <- Er in Hr. rewrite <- El in Hl.
  destruct (updateFurnitureModel_fields fuel fuel_enough w _ Hs)
    as (w1 & built & next & Hb & Hu & Hs1 & Ho1 & Hh1 & _ & Hcs & Hr1 & Hl1 & Hi1
        & Hcol1 & _).
  rewrite Hu in Hw'. injection Hw' as <-.
  rewrite Ho in Hs1. cbn [scene_children] in Hs1. rewrite remove_child_base in Hs1.
  unfold controllerState in Hcs. injection Hcs as _ _ _ Hcam1.
  unfold started. exists (nextId w), camera, renderer.
  exists (mkObject3D (nextId w) (obj_children built) (mkVector3 0 0 0) (mkEuler 0 0 0)).
  exists built, next.
  rewrite Hi1, Hcol1, Hcam1, Hr1, Hl1.
  repeat (split; [eassumption || reflexivity|]). exact Hcam.
Qed.

Lemma step_started e w w' :
  is_ContextCreate e = false -> started fuel w -> step fuel e w = Some w' ->
  started fuel w'.
Proof.
  intros He Hst. destruct e; try discriminate; cbn [step].
  - intros [= <-].
    destruct Hst as (id & camera & renderer & model & built & next & Hs & Hc & Hr
                     & Ho & Hh & Hl & Hb & Hrest).
    destruct (render_fields w) as (Ri & Rcol & Rl & _).
    destruct (render_refs w) as (Rs & Ro & Rh & Rr).
    destruct (render_controller_fields w) as (_ & _ & _ & Rc).
    exists id, camera, renderer, model, built, next.
    rewrite Rs, Rc, Rr, Ro, Rh, Rl, Ri, Rcol. auto 20.
  - unfold selectItem. destruct (item_eqb _ _); [now intros [= <-]|].
    apply (rebuild_started w); auto.
  - unfold selectColor. destruct (color_eqb _ _); [now intros [= <-]|].
    apply (rebuild_started w); auto.
  - intros [= <-].
    destruct Hst as (id & camera & renderer & model & built & next & Hs & Hc & Hr
                     & Ho & Hh & Hl & Hb & Hid & Hch & Hp & Hz & Hcam).
    destruct (pan_onUpdate_unfold translationX translationY w id Ho)
      as (_ & _ & Ho' & Hh').
    rewrite Hh in Hh'. cbn in Hh'.
    destruct (gesture_fields fuel (PanUpdate translationX translationY) w _
                (or_introl eq_refl) eq_refl)
      as (Gs & Gr & _ & Gl & Gi & Gc & _).
    assert (Gcam : cameraRef (panGesture.onUpdate translationX translationY w)
                   = cameraRef w) by apply pan_onUpdate_zoom.
    unfold started. exists id, camera, renderer. eexists. exists built, next.
    cbn [step] in *. rewrite Gs, Gr, Gl, Gi, Gc, Gcam.
    repeat (split; [eassumption || reflexivity|]). exact Hcam.
  - intros [= <-].
    destruct Hst as (id & camera & renderer & model & built & next & Hs & Hc & Hr
                     & Ho & Hh & Hl & Hb & Hrest).
    destruct (gesture_fields fuel PanEnd w _ (or_introl eq_refl) eq_refl)
      as (Gs & Gr & Go & Gl & Gi & Gc & _).
    assert (Gcam : cameraRef (panGesture.onEnd w) = cameraRef w)
      by apply pan_onEnd_zoom.
    assert (Gh : heap (panGesture.onEnd w) = heap w).
    { unfold panGesture.onEnd. rewrite Ho, Hh. reflexivity. }
    exists id, camera, renderer, model, built, next.
    cbn [step] in *. rewrite Gs, Gr, Go, Gl, Gi, Gc, Gcam, Gh. auto 20.
  - intros [= <-].
    destruct Hst as (id & camera & renderer & model & built & next & Hs & Hc & Hr
                     & Ho & Hh & Hl & Hb & Hrest).
    exists id, camera, renderer, model, built, next.
    unfold pinchGesture.onStart. rewrite Hc. cbn. auto 20.
  - intros [= <-].
    destruct Hst as (id & camera & renderer & model & built & next & Hs & Hc & Hr
                     & Ho & Hh & Hl & Hb & Hid & Hch & Hp & Hz & Hcam).
    unfold started. exists id. eexists. exists renderer, model, built, next.
    unfold pinchGesture.onUpdate. rewrite Hc. cbn.
    repeat (split; [eassumption || reflexivity|]). exact Hcam.
  - intros [= <-].
    destruct Hst as (id & camera & renderer & model & built & next & Hs & Hc & Hr
                     & Ho & Hh & Hl & Hb & Hrest).
    exists id, camera, renderer, model, built, next.
    unfold pinchGesture.onEnd. rewrite Hc. cbn. auto 20.
Qed.

End Reachable.

Section ReachableRuns.

Variable fuel : nat.
Hypothesis fuel_enough : 3 <= fuel.

Lemma step_frames_ok e w w' : frames_ok w -> step fuel e w = Some w' -> frames_ok w'.
Proof.
  intros (Hn & Ha & Hpos) Hstep.
  assert (Hsame : forall v, animationRef v = animationRef w ->
                            nextHandle v = nextHandle w ->
                            last_requested (calls v) = last_requested (calls w) ->
                            frames_ok v).
  { intros v Ea En Ec. unfold frames_ok. rewrite Ea, En, Ec. auto. }
  assert (Hrebuild : forall v v', animationRef v = animationRef w ->
                       nextHandle v = nextHandle w -> calls v = calls w ->
                       updateFurnitureModel fuel v = Some v' -> frames_ok v').
  { intros v v' Ea En Ec Hv. destruct (sceneRef v) as [scene|] eqn:Hs.
    - destruct (updateFurnitureModel_fields fuel fuel_enough v scene Hs)
        as (v1 & _ & _ & _ & Hu & _ & _ & _ & Hc1 & _ & _ & _ & _ & _ & Ha1 & Hn1).
      rewrite Hu in Hv. injection Hv as <-. apply Hsame; [congruence|congruence|].
      rewrite Hc1, Ec. unfold last_requested. rewrite last_requested_from_app.
      now destruct (objectRef v).
    - rewrite updateFurnitureModel_no_scene in Hv by exact Hs.
      injection Hv as <-. apply Hsame; congruence. }
  revert Hstep. destruct e; cbn [step]; intros Hstep.
  - destruct (onContextCreate_fields fuel gl w fuel_enough)
      as (w1 & Hw1 & (_ & _ & _ & _ & _ & _ & _ & _ & _ & _ & _ & _ & _ & _ & Ha1
                      & Hn1 & Hc1)).
    rewrite Hw1 in Hstep. injection Hstep as <-.
    unfold frames_ok. rewrite Ha1, Hn1, Hc1. split; [lia|]. split.
    + unfold last_requested. rewrite !last_requested_from_app.
      now destruct (objectRef w).
    + intros h [= <-]. exact Hn.
  - injection Hstep as <-.
    destruct (render_fields w) as (_ & _ & _ & _ & Ra & Rn & Rc).
    unfold frames_ok. rewrite Ra, Rn, Rc. split; [lia|]. split.
    + unfold last_requested. rewrite last_requested_from_app. cbn.
      now destruct (rendererRef w), (sceneRef w), (cameraRef w).
    + intros h [= <-]. exact Hn.
  - unfold selectItem in Hstep. destruct (item_eqb _ _).
    + injection Hstep as <-. apply Hsame; reflexivity.
    + apply (Hrebuild (set_selectedItem item w) _ eq_refl eq_refl eq_refl Hstep).
  - unfold selectColor in Hstep. destruct (color_eqb _ _).
    + injection Hstep as <-. apply Hsame; reflexivity.
    + apply (Hrebuild (set_selectedColor color w) _ eq_refl eq_refl eq_refl Hstep).
  - destruct (gesture_fields fuel (PanUpdate translationX translationY) w w' (or_introl eq_refl) Hstep)
      as (_ & _ & _ & _ & _ & _ & Ga & Gn & Gc & _).
    apply Hsame; congruence.
  - destruct (gesture_fields fuel PanEnd w w' (or_introl eq_refl) Hstep)
      as (_ & _ & _ & _ & _ & _ & Ga & Gn & Gc & _).
    apply Hsame; congruence.
  - destruct (gesture_fields fuel PinchStart w w' (or_intror eq_refl) Hstep)
      as (_ & _ & _ & _ & _ & _ & Ga & Gn & Gc & _).
    apply Hsame; congruence.
  - destruct (gesture_fields fuel (PinchUpdate scale) w w' (or_intror eq_refl) Hstep)
      as (_ & _ & _ & _ & _ & _ & Ga & Gn & Gc & _).
    apply Hsame; congruence.
  - destruct (gesture_fields fuel PinchEnd w w' (or_intror eq_refl) Hstep)
      as (_ & _ & _ & _ & _ & _ & Ga & Gn & Gc & _).
    apply Hsame; congruence.
Qed.

Lemma run_frames_ok es : forall w w',
  frames_ok w -> run fuel es w = Some w' -> frames_ok w'.
Proof.
  induction es as [|e es IH]; intros w w' Hok; cbn [run].
  - now intros [= <-].
  - destruct (step fuel e w) as [w1|] eqn:E; [|discriminate].
    apply IH. exact (step_frames_ok e w w1 Hok E).
Qed.

Lemma step_any_started e w w' :
  started fuel w -> step fuel e w = Some w' -> started fuel w'.
Proof.
  intros Hst Hstep. destruct (is_ContextCreate e) eqn:He.
  - revert Hstep. destruct e; try discriminate. cbn [step]. intros Hstep.
    destruct (onContextCreate_fields fuel gl w fuel_enough) as (w1 & Hw1 & Hcc).
    rewrite Hw1 in Hstep. injection Hstep as <-.
    exact (context_created_started fuel gl w w1 Hcc).
  - exact (step_started fuel fuel_enough e w w' He Hst Hstep).
Qed.

Lemma run_started es : forall w w',
  started fuel w -> run fuel es w = Some w' -> started fuel w'.
Proof.
  induction es as [|e es IH]; intros w w' Hst; cbn [run].
  - now intros [= <-].
  - destruct (step fuel e w) as [w1|] eqn:E; [|discriminate].
    apply IH. exact (step_any_started e w w1 Hst E).
Qed.

Lemma run_not_started es : forall w w',
  existsb is_ContextCreate es = false -> not_started w ->
  run fuel es w = Some w' -> not_started w'.
Proof.
  induction es as [|e es IH]; intros w w' Hes Hns; cbn [run].
  - now intros [= <-].
  - cbn in Hes. apply orb_false_iff in Hes as [He Hes].
    destruct (step fuel e w) as [w1|] eqn:E; [|discriminate].
    apply (IH w1 w' Hes). exact (step_not_started fuel e w w1 He Hns E).
Qed.

Lemma run_reaches_started es : forall w w',
  existsb is_ContextCreate es = true -> not_started w ->
  run fuel es w = Some w' -> started fuel w'.
Proof.
  induction es as [|e es IH]; intros w w' Hes Hns; cbn [run]; [discriminate|].
  cbn in Hes. destruct (step fuel e w) as [w1|] eqn:E; [|discriminate].
  destruct (is_ContextCreate e) eqn:He.
  - revert E. destruct e; try discriminate. cbn [step]. intros E.
    destruct (onContextCreate_fields fuel gl w fuel_enough) as (w2 & Hw2 & Hcc).
    rewrite Hw2 in E. injection E as <-.
    apply run_started. exact (context_created_started fuel gl w w2 Hcc).
  - cbn in Hes. apply (IH w1 w' Hes).
    exact (step_not_started fuel e w w1 He Hns E).
Qed.

End ReachableRuns.

Lemma initialWorld_not_started : not_started initialWorld.
Proof. repeat split. Qed.

Lemma initialWorld_frames_ok : frames_ok initialWorld.
Proof. split; [cbn; lia|]. split; [reflexivity|]. intros h [=]. Qed.

(* ================================================================== *)
(** ** Selection changes *)
(* ================================================================== *)

(** In a state the component can reach, no scene means no model. *)
Lemma reachable_no_scene_no_model fuel es w :
  3 <= fuel -> run fuel es initialWorld = Some w ->
  sceneRef w = None -> objectRef w = None.
Proof.
  intros Hfuel Hrun Hs.
  destruct (existsb is_ContextCreate es) eqn:Hes.
  - pose proof (run_reaches_started fuel Hfuel es _ _ Hes
                  initialWorld_not_started Hrun) as Hst.
    destruct Hst as (id & camera & renderer & model & built & next & Hsc & _).
    rewrite Hs in Hsc. discriminate.
  - pose proof (run_not_started fuel es _ _ Hes initialWorld_not_started Hrun)
      as (_ & _ & _ & Ho & _).
    exact Ho.
Qed.

(** The rebuild that follows a change of the selection: [w0] is [w] with
    the new selection stored. *)
Lemma updateFurnitureModel_rebuilt fuel w w0 :
  3 <= fuel -> scene_ok w0 ->
  (sceneRef w0 = None -> objectRef w0 = None) ->
  sceneRef w0 = sceneRef w -> nextId w0 = nextId w ->
  controllerState w0 = controllerState w ->
  exists w',
    updateFurnitureModel fuel w0 = Some w' /\
    selectedItem w' = selectedItem w0 /\
    selectedColor w' = selectedColor w0 /\
    rebuilt_unrotated fuel w w'.
Proof.
  intros Hfuel Hok Hnone Hsw Hnw Hcs.
  destruct (sceneRef w0) as [scene|] eqn:Hs.
  - destruct (updateFurnitureModel_spec fuel Hfuel w0 scene Hok Hs)
      as (w' & built & next & Hb & Hw' & Hat & Ho & Hm & _).
    destruct (updateFurnitureModel_fields fuel Hfuel w0 scene Hs)
      as (w2 & _ & _ & _ & Hw2 & _ & _ & _ & _ & _ & _ & _ & Hi & Hc & _).
    rewrite Hw' in Hw2. injection Hw2 as <-.
    pose proof (updateFurnitureModel_controller _ _ _ Hw') as Hcon.
    rewrite Hcs in Hcon. unfold controllerState in Hcon.
    injection Hcon as Hr Hl Ha Hcam.
    exists w'. split; [exact Hw'|]. split; [exact Hi|]. split; [exact Hc|].
    unfold rebuilt_unrotated. rewrite <- Hsw.
    split; [exact Hr|]. split; [exact Hl|]. split; [exact Ha|].
    split; [exact Hcam|]. split; [unfold cameraDistance; now rewrite Hcam|].
    exists (mkObject3D (nextId w0) (obj_children built) (mkVector3 0 0 0)
              (mkEuler 0 0 0)), built, next.
    rewrite Hi, Hc, <- Hnw. split; [exact Hb|].
    split; [exact Ho|]. split; [exact Hm|]. split; [exact Hat|].
    repeat split.
  - exists w0. split; [now apply updateFurnitureModel_no_scene|].
    split; [reflexivity|]. split; [reflexivity|].
    unfold controllerState in Hcs. injection Hcs as Hr Hl Ha Hcam.
    unfold rebuilt_unrotated. rewrite <- Hsw.
    split; [exact Hr|]. split; [exact Hl|]. split; [exact Ha|].
    split; [exact Hcam|]. split; [unfold cameraDistance; now rewrite Hcam|].
    split; [exact Hs|]. now apply Hnone.
Qed.

(** C3, as the code has it: in every state the component can reach, a
    selection change (furniture kind or colour) stores the new selection
    and leaves the orientation state, the last pan sample, the zoom anchor
    and the camera, hence the camera distance, unchanged.  Once there is a
    scene, the model on display afterwards is the one just built for the
    new selection, the only model attached, placed at the origin with
    rotation (0, 0, 0): it does not take the accumulated orientation.
    Before there is a scene the selection change attaches no model. *)
Theorem selection_change_keeps_controller_state
    (fuel : nat) (es : list Event) (w : World)
    (item : FurnitureItem) (color : ColorOption) :
  3 <= fuel ->
  run fuel es initialWorld = Some w ->
  (item_eqb item (selectedItem w) = false ->
   exists w',
     selectItem fuel item w = Some w' /\
     selectedItem w' = item /\ selectedColor w' = selectedColor w /\
     rebuilt_unrotated fuel w w') /\
  (color_eqb color (selectedColor w) = false ->
   exists w',
     selectColor fuel color w = Some w' /\
     selectedItem w' = selectedItem w /\ selectedColor w' = color /\
     rebuilt_unrotated fuel w w').
Proof.
  intros Hfuel Hrun.
  pose proof (run_scene_ok fuel Hfuel es _ _ initialWorld_scene_ok Hrun) as Hok.
  pose proof (reachable_no_scene_no_model fuel es w Hfuel Hrun) as Hnone.
  unfold selectItem, selectColor. split.
  - intros ->.
    apply (updateFurnitureModel_rebuilt fuel w (set_selectedItem item w));
      auto.
  - intros ->.
    apply (updateFurnitureModel_rebuilt fuel w (set_selectedColor color w));
      auto.
Qed.

Lemma selection_change_keeps_controller_state_witness :
  (exists w',
     selectItem 3 (mkFurnitureItem 2 "Coffee Table" table) turnedWorld = Some w' /\
     selectedItem w' = mkFurnitureItem 2 "Coffee Table" table /\
     selectedColor w' = selectedColor turnedWorld /\
     rebuilt_unrotated 3 turnedWorld w') /\
  (exists w',
     selectColor 3 (mkColorOption "Blue" 0x4169e1) initialWorld = Some w' /\
     selectedItem w' = selectedItem initialWorld /\
     selectedColor w' = mkColorOption "Blue" 0x4169e1 /\
     rebuilt_unrotated 3 initialWorld w').
Proof.
  split.
  - destruct (selection_change_keeps_controller_state 3
                [ContextCreate (mkGL 400 300); PanUpdate 1 0; PanEnd]
                turnedWorld
                (mkFurnitureItem 2 "Coffee Table" table)
                (mkColorOption "Blue" 0x4169e1)) as [Hitem _];
      [lia | vm_compute; reflexivity |].
    apply Hitem. reflexivity.
  - destruct (selection_change_keeps_controller_state 3 [] initialWorld
                (mkFurnitureItem 2 "Coffee Table" table)
                (mkColorOption "Blue" 0x4169e1)) as [_ Hcolor];
      [lia | reflexivity |].
    apply Hcolor. reflexivity.
Defined.

(** After a pan that turned the chair to (0, 0.01), selecting the coffee
    table keeps the orientation state at (0, 0.01) but displays the table
    at rotation (0, 0): the new model does not have the accumulated
    orientation. *)
Lemma selection_change_resets_model_rotation :
  exists w',
    run 3 [ContextCreate (mkGL 400 300); PanUpdate 1 0; PanEnd;
           SelectItem (mkFurnitureItem 2 "Coffee Table" table)] initialWorld
    = Some w' /\
    rotationRef w' = mkPosition 0 0.01 /\
    option_map rotationXY (currentModel w') = Some (mkPosition 0 0) /\
    option_map rotationXY (currentModel w') <> Some (rotationRef w').
Proof.
  eexists. split; [vm_compute; reflexivity|].
  split; [reflexivity|]. split; [vm_compute; reflexivity|].
  intros H.
  apply (f_equal (option_map (fun p => pos_y p =? 0))) in H.
  vm_compute in H. discriminate.
Qed.

(* ================================================================== *)
(** ** Before and after the GL context *)
(* ================================================================== *)

(** X9: until the GL context is created nothing is built and the
    gestures have no effect: whatever other events arrive, there is no
    scene, camera, renderer or model, the loading flag stays set, the
    orientation and the last pan sample stay (0, 0), the zoom anchor stays
    3, and no call adds to, removes from or draws a scene. *)
Theorem nothing_is_built_before_context (fuel : nat) (es : list Event) :
  3 <= fuel ->
  existsb is_ContextCreate es = false ->
  exists w, run fuel es initialWorld = Some w /\ not_started w.
Proof.
  intros Hfuel Hes. destruct (run_total fuel Hfuel es initialWorld) as [w Hw].
  exists w. split; [exact Hw|].
  exact (run_not_started fuel es _ _ Hes initialWorld_not_started Hw).
Qed.

Lemma nothing_is_built_before_context_witness :
  exists w,
    run 3 [PanUpdate 30 40; SelectColor (mkColorOption "Red" 0xb22222);
           PinchUpdate 2; AnimationFrame; PanEnd] initialWorld = Some w /\
    not_started w.
Proof.
  apply (nothing_is_built_before_context 3); [lia | reflexivity].
Defined.

(** X10: once the GL context has been created, whatever events follow,
    the scene is the ambient light, the directional light, the grid and
    exactly the model [objectRef] points to, in that order; that model has
    the parts the factory builds for the current selection, sits at the
    origin and is not rotated about z; camera and renderer exist, the
    camera keeps its field of view, clipping planes and its x and y
    position, and the loading flag is cleared. *)
Theorem displayed_model_matches_selection (fuel : nat) (es : list Event) :
  3 <= fuel ->
  existsb is_ContextCreate es = true ->
  exists w, run fuel es initialWorld = Some w /\ started fuel w.
Proof.
  intros Hfuel Hes. destruct (run_total fuel Hfuel es initialWorld) as [w Hw].
  exists w. split; [exact Hw|].
  exact (run_reaches_started fuel Hfuel es _ _ Hes initialWorld_not_started Hw).
Qed.

Lemma displayed_model_matches_selection_witness :
  exists w,
    run 3 [SelectColor (mkColorOption "Red" 0xb22222);
           ContextCreate (mkGL 400 300); PanUpdate 30 40;
           SelectItem (mkFurnitureItem 3 "Floor Lamp" lamp); PinchUpdate 2]
      initialWorld = Some w /\
    started 3 w.
Proof.
  apply (displayed_model_matches_selection 3); [lia | reflexivity].
Defined.

(** X11: once the GL context has been created, every tick of the render
    loop requests the next frame, draws the current scene with the current
    camera exactly once, and signals the end of the frame, in that order. *)
Theorem tick_draws_after_context (fuel : nat) (es : list Event) :
  3 <= fuel ->
  existsb is_ContextCreate es = true ->
  exists w scene camera,
    run fuel es initialWorld = Some w /\
    sceneRef w = Some scene /\ cameraRef w = Some camera /\
    calls (render w)
    = calls w ++ [ RequestAnimationFrame (nextHandle w);
                   RendererRender scene camera; EndFrameEXP ].
Proof.
  intros Hfuel Hes. destruct (run_total fuel Hfuel es initialWorld) as [w Hw].
  pose proof (run_reaches_started fuel Hfuel es _ _ Hes initialWorld_not_started Hw)
    as (id & camera & renderer & _ & _ & _ & Hs & Hc & Hr & _).
  exists w. do 2 eexists. split; [exact Hw|]. split; [exact Hs|]. split; [exact Hc|].
  destruct (render_fields w) as (_ & _ & _ & _ & _ & _ & ->).
  now rewrite Hs, Hc, Hr.
Qed.

Lemma tick_draws_after_context_witness :
  exists w scene camera,
    run 3 [ContextCreate (mkGL 400 300); PinchUpdate 2] initialWorld = Some w /\
    sceneRef w = Some scene /\ cameraRef w = Some camera /\
    calls (render w)
    = calls w ++ [ RequestAnimationFrame (nextHandle w);
                   RendererRender scene camera; EndFrameEXP ].
Proof.
  apply (tick_draws_after_context 3); [lia | reflexivity].
Defined.

Lemma step_keeps_frame_pending fuel e w w' :
  3 <= fuel -> step fuel e w = Some w' ->
  animationRef w <> None -> animationRef w' <> None.
Proof.
  intros Hfuel Hstep Hp. revert Hstep. destruct e; cbn [step]; intros Hstep.
  - destruct (onContextCreate_fields fuel gl w Hfuel) as (w1 & Hw1 & Hcc).
    rewrite Hw1 in Hstep. injection Hstep as <-.
    destruct Hcc as (_ & _ & _ & _ & _ & _ & _ & _ & _ & _ & _ & _ & _ & _ & -> & _).
    discriminate.
  - injection Hstep as <-. destruct (render_fields w) as (_ & _ & _ & _ & -> & _).
    discriminate.
  - unfold selectItem in Hstep. destruct (item_eqb _ _).
    + now injection Hstep as <-.
    + destruct (sceneRef (set_selectedItem item w)) as [scene|] eqn:Hs.
      * destruct (updateFurnitureModel_fields fuel Hfuel _ scene Hs)
          as (v1 & _ & _ & _ & Hu & _ & _ & _ & _ & _ & _ & _ & _ & _ & Ha1 & _).
        rewrite Hu in Hstep. injection Hstep as <-. now rewrite Ha1.
      * rewrite updateFurnitureModel_no_scene in Hstep by exact Hs.
        now injection Hstep as <-.
  - unfold selectColor in Hstep. destruct (color_eqb _ _).
    + now injection Hstep as <-.
    + destruct (sceneRef (set_selectedColor color w)) as [scene|] eqn:Hs.
      * destruct (updateFurnitureModel_fields fuel Hfuel _ scene Hs)
          as (v1 & _ & _ & _ & Hu & _ & _ & _ & _ & _ & _ & _ & _ & _ & Ha1 & _).
        rewrite Hu in Hstep. injection Hstep as <-. now rewrite Ha1.
      * rewrite updateFurnitureModel_no_scene in Hstep by exact Hs.
        now injection Hstep as <-.
  - destruct (gesture_fields fuel (PanUpdate translationX translationY) w w'
                (or_introl eq_refl) Hstep) as (_ & _ & _ & _ & _ & _ & -> & _).
    exact Hp.
  - destruct (gesture_fields fuel PanEnd w w' (or_introl eq_refl) Hstep)
      as (_ & _ & _ & _ & _ & _ & -> & _). exact Hp.
  - destruct (gesture_fields fuel PinchStart w w' (or_intror eq_refl) Hstep)
      as (_ & _ & _ & _ & _ & _ & -> & _). exact Hp.
  - destruct (gesture_fields fuel (PinchUpdate scale) w w' (or_intror eq_refl) Hstep)
      as (_ & _ & _ & _ & _ & _ & -> & _). exact Hp.
  - destruct (gesture_fields fuel PinchEnd w w' (or_intror eq_refl) Hstep)
      as (_ & _ & _ & _ & _ & _ & -> & _). exact Hp.
Qed.

Lemma run_frame_pending fuel es :
  3 <= fuel ->
  forall w w', run fuel es w = Some w' ->
    animationRef w <> None \/ existsb is_ContextCreate es = true
    \/ existsb (fun e => match e with AnimationFrame => true | _ => false end) es = true ->
    animationRef w' <> None.
Proof.
  intros Hfuel. induction es as [|e es IH]; intros w w'; cbn [run].
  - intros [= <-] [H | [H | H]]; [exact H | discriminate | discriminate].
  - destruct (step fuel e w) as [w1|] eqn:E; [|discriminate].
    intros Hrun H. apply (IH w1 w' Hrun).
    destruct H as [H | H].
    + left. exact (step_keeps_frame_pending fuel e w w1 Hfuel E H).
    + assert (Hnow : (is_ContextCreate e = true \/
                      match e with AnimationFrame => true | _ => false end = true)
                     \/ (existsb is_ContextCreate es = true \/
                         existsb (fun e => match e with AnimationFrame => true
                                                   | _ => false end) es = true)).
      { cbn in H. destruct H as [H | H]; apply orb_true_iff in H; tauto. }
      destruct Hnow as [Hnow | Hlater]; [left | right; exact Hlater].
      revert E. destruct e; cbn [step]; intros E;
        try (destruct Hnow; discriminate).
      * destruct (onContextCreate_fields fuel gl w Hfuel) as (w2 & Hw2 & Hcc).
        rewrite Hw2 in E. injection E as <-.
        destruct Hcc as (_ & _ & _ & _ & _ & _ & _ & _ & _ & _ & _ & _ & _ & _ & -> & _).
        discriminate.
      * injection E as <-. destruct (render_fields w) as (_ & _ & _ & _ & -> & _).
        discriminate.
Qed.

(** X12: the clean-up on unmount cancels exactly the frame requested
    last, the only one still pending, and nothing when no frame was ever
    requested; once the GL context has been created or a tick has run,
    there is such a frame, so a cancellation is made. *)
Theorem cleanup_cancels_pending_frame (fuel : nat) (es : list Event) :
  3 <= fuel ->
  exists w,
    run fuel es initialWorld = Some w /\
    cleanup w
    = match last_requested (calls w) with
      | Some handle => [CancelAnimationFrame handle]
      | None => []
      end /\
    (existsb is_ContextCreate es = true \/
     existsb (fun e => match e with AnimationFrame => true | _ => false end) es = true ->
     exists handle, cleanup w = [CancelAnimationFrame handle]).
Proof.
  intros Hfuel. destruct (run_total fuel Hfuel es initialWorld) as [w Hw].
  pose proof (run_frames_ok fuel Hfuel es _ _ initialWorld_frames_ok Hw)
    as (Hn & Ha & Hpos).
  assert (Hc : cleanup w = match last_requested (calls w) with
                           | Some handle => [CancelAnimationFrame handle]
                           | None => []
                           end).
  { unfold cleanup. rewrite <- Ha. destruct (animationRef w) as [h|] eqn:E;
      [|reflexivity].
    specialize (Hpos h eq_refl). destruct h; [lia|reflexivity]. }
  exists w. split; [exact Hw|]. split; [exact Hc|].
  intros H. pose proof (run_frame_pending fuel es Hfuel _ _ Hw (or_intror H)) as Hp.
  rewrite Hc, <- Ha. destruct (animationRef w) as [h|]; [eauto|contradiction].
Qed.

Lemma cleanup_cancels_pending_frame_witness :
  exists w,
    run 3 [ContextCreate (mkGL 400 300); AnimationFrame; AnimationFrame] initialWorld
    = Some w /\
    exists handle, cleanup w = [CancelAnimationFrame handle].
Proof.
  destruct (cleanup_cancels_pending_frame 3
              [ContextCreate (mkGL 400 300); AnimationFrame; AnimationFrame])
    as (w & Hw & _ & Hc); [lia|].
  exists w. split; [exact Hw|]. apply Hc. left. reflexivity.
Defined.

(** X13: a rebuild keeps the accumulated orientation in the orientation
    state, but a pan gesture that ends before any update then copies the
    new model's rotation into it: after a rebuild followed by a pan end the
    orientation state is (0, 0), whatever it was. *)
Theorem pan_end_after_rebuild_resets_orientation
    (fuel : nat) (w : World) (scene : Scene) :
  3 <= fuel ->
  sceneRef w = Some scene ->
  exists w1,
    updateFurnitureModel fuel w = Some w1 /\
    rotationRef w1 = rotationRef w /\
    rotationRef (panGesture.onEnd w1) = mkPosition 0 0 /\
    lastPositionRef (panGesture.onEnd w1) = mkPosition 0 0.
Proof.
  intros Hfuel Hs.
  destruct (updateFurnitureModel_fields fuel Hfuel w scene Hs)
    as (w1 & built & next & _ & Hu & _ & Ho & Hh & _ & Hcs & _).
  unfold controllerState in Hcs. injection Hcs as Hr _ _ _.
  exists w1. split; [exact Hu|]. split; [exact Hr|].
  unfold panGesture.onEnd. rewrite Ho, Hh. split; reflexivity.
Qed.

Lemma pan_end_after_rebuild_resets_orientation_witness :
  rotationRef turnedWorld = mkPosition 0 0.01 /\
  exists w1,
    updateFurnitureModel 3 turnedWorld = Some w1 /\
    rotationRef w1 = rotationRef turnedWorld /\
    rotationRef (panGesture.onEnd w1) = mkPosition 0 0 /\
    lastPositionRef (panGesture.onEnd w1) = mkPosition 0 0.
Proof.
  split; [reflexivity|].
  apply (pan_end_after_rebuild_resets_orientation 3 turnedWorld readyScene);
    [lia | reflexivity].
Defined.

Lemma step_selection_from_menus fuel e w w' :
  3 <= fuel -> from_menus e -> selection_from_menus w ->
  step fuel e w = Some w' -> selection_from_menus w'.
Proof.
  intros Hfuel He [Hi Hc] Hstep.
  assert (Hsame : selectedItem w' = selectedItem w ->
                  selectedColor w' = selectedColor w -> selection_from_menus w').
  { intros Ei Ec. unfold selection_from_menus. now rewrite Ei, Ec. }
  assert (Hrebuild : forall v, In (selectedItem v) FURNITURE_ITEMS ->
                               In (selectedColor v) COLOR_OPTIONS ->
                               updateFurnitureModel fuel v = Some w' ->
                               selection_from_menus w').
  { intros v Vi Vc Hv. destruct (sceneRef v) as [scene|] eqn:Hs.
    - destruct (updateFurnitureModel_fields fuel Hfuel v scene Hs)
        as (v1 & _ & _ & _ & Hu & _ & _ & _ & _ & _ & _ & _ & Hi1 & Hc1 & _).
      rewrite Hu in Hv. injection Hv as <-.
      unfold selection_from_menus. now rewrite Hi1, Hc1.
    - rewrite updateFurnitureModel_no_scene in Hv by exact Hs.
      injection Hv as <-. split; assumption. }
  revert Hstep. destruct e; cbn [step]; intros Hstep.
  - destruct (onContextCreate_fields fuel gl w Hfuel)
      as (w1 & Hw1 & (_ & _ & _ & _ & _ & _ & _ & _ & _ & Hi1 & Hc1 & _)).
    rewrite Hw1 in Hstep. injection Hstep as <-.
    unfold selection_from_menus. now rewrite Hi1, Hc1.
  - injection Hstep as <-. destruct (render_fields w) as (Ri & Rc & _).
    unfold selection_from_menus. now rewrite Ri, Rc.
  - unfold selectItem in Hstep. destruct (item_eqb _ _).
    + injection Hstep as <-. split; assumption.
    + apply (Hrebuild (set_selectedItem item w)); auto.
  - unfold selectColor in Hstep. destruct (color_eqb _ _).
    + injection Hstep as <-. split; assumption.
    + apply (Hrebuild (set_selectedColor color w)); auto.
  - destruct (gesture_fields fuel (PanUpdate translationX translationY) w w'
                (or_introl eq_refl) Hstep) as (_ & _ & _ & _ & Gi & Gc & _). auto.
  - destruct (gesture_fields fuel PanEnd w w' (or_introl eq_refl) Hstep)
      as (_ & _ & _ & _ & Gi & Gc & _). auto.
  - destruct (gesture_fields fuel PinchStart w w' (or_intror eq_refl) Hstep)
      as (_ & _ & _ & _ & Gi & Gc & _). auto.
  - destruct (gesture_fields fuel (PinchUpdate scale) w w' (or_intror eq_refl) Hstep)
      as (_ & _ & _ & _ & Gi & Gc & _). auto.
  - destruct (gesture_fields fuel PinchEnd w w' (or_intror eq_refl) Hstep)
      as (_ & _ & _ & _ & Gi & Gc & _). auto.
Qed.

Lemma run_selection_from_menus fuel es :
  3 <= fuel -> Forall from_menus es ->
  forall w w', selection_from_menus w -> run fuel es w = Some w' ->
               selection_from_menus w'.
Proof.
  intros Hfuel Hes. induction Hes as [|e es He Hes IH]; intros w w' Hw; cbn [run].
  - now intros [= <-].
  - destruct (step fuel e w) as [w1|] eqn:E; [|discriminate].
    apply IH. exact (step_selection_from_menus fuel e w w1 Hfuel He Hw E).
Qed.

Lemma highlight_unique w :
  selection_from_menus w ->
  List.filter (selectionItem_selected w) FURNITURE_ITEMS = [selectedItem w] /\
  List.filter (colorItem_selected w) COLOR_OPTIONS = [selectedColor w].
Proof.
  unfold selection_from_menus, selectionItem_selected, colorItem_selected.
  intros [Hi Hc]. split.
  - cbn in Hi. destruct Hi as [E | [E | [E | []]]]; rewrite <- E; reflexivity.
  - cbn in Hc.
    destruct Hc as [E | [E | [E | [E | [E | []]]]]]; rewrite <- E; reflexivity.
Qed.

(** X14: as long as the selection events carry entries of the two menus,
    exactly one furniture button and exactly one colour button are drawn
    as selected, namely those of the current selection, and the info line
    names them. *)
Theorem one_entry_of_each_menu_is_highlighted (fuel : nat) (es : list Event) :
  3 <= fuel ->
  Forall from_menus es ->
  exists w,
    run fuel es initialWorld = Some w /\
    List.filter (selectionItem_selected w) FURNITURE_ITEMS = [selectedItem w] /\
    List.filter (colorItem_selected w) COLOR_OPTIONS = [selectedColor w] /\
    In (infoText w)
       (flat_map (fun item =>
                    map (fun color =>
                           ("Selected: " ++ item_name item ++ " in "
                            ++ color_name color)%string) COLOR_OPTIONS)
                 FURNITURE_ITEMS).
Proof.
  intros Hfuel Hes. destruct (run_total fuel Hfuel es initialWorld) as [w Hw].
  assert (H0 : selection_from_menus initialWorld).
  { split; cbn; auto. }
  pose proof (run_selection_from_menus fuel es Hfuel Hes _ _ H0 Hw) as Hsel.
  destruct (highlight_unique w Hsel) as [H1 H2].
  exists w. split; [exact Hw|]. split; [exact H1|]. split; [exact H2|].
  destruct Hsel as [Hi Hc]. unfold infoText.
  apply in_flat_map. exists (selectedItem w). split; [exact Hi|].
  apply in_map_iff. exists (selectedColor w). split; [reflexivity|exact Hc].
Qed.

Lemma one_entry_of_each_menu_is_highlighted_witness :
  exists w,
    run 3 [SelectItem (mkFurnitureItem 2 "Coffee Table" table);
           ContextCreate (mkGL 400 300);
           SelectColor (mkColorOption "Blue" 0x4169e1)] initialWorld = Some w /\
    List.filter (selectionItem_selected w) FURNITURE_ITEMS = [selectedItem w] /\
    List.filter (colorItem_selected w) COLOR_OPTIONS = [selectedColor w].
Proof.
  destruct (one_entry_of_each_menu_is_highlighted 3
              [SelectItem (mkFurnitureItem 2 "Coffee Table" table);
               ContextCreate (mkGL 400 300);
               SelectColor (mkColorOption "Blue" 0x4169e1)])
    as (w & Hw & H1 & H2 & _);
    [lia | repeat (apply List.Forall_cons; [cbn; auto 10|]); apply List.Forall_nil |].
  exists w. auto.
Defined.

(* ================================================================== *)
(** ** The colour swatches *)
(* ================================================================== *)

Section HexStrings.

Local Open Scope string_scope.

Lemma string_app_cons c (s t : string) : String c s ++ t = String c (s ++ t).
Proof. reflexivity. Qed.

Lemma string_app_nil (t : string) : "" ++ t = t.
Proof. reflexivity. Qed.

Lemma string_app_assoc (s1 s2 s3 : string) : (s1 ++ s2) ++ s3 = s1 ++ (s2 ++ s3).
Proof.
  induction s1 as [|c s1 IH]; [reflexivity|].
  rewrite !string_app_cons. now rewrite IH.
Qed.

Lemma string_length_app (s1 s2 : string) :
  String.length (s1 ++ s2) = (String.length s1 + String.length s2)%nat.
Proof.
  induction s1 as [|c s1 IH]; [reflexivity|].
  rewrite string_app_cons. cbn [String.length Nat.add]. now rewrite IH.
Qed.

Lemma hexValue_hexDigit d : (d < 16)%N -> hexValue (hexDigit d) = Some d.
Proof.
  intros H. rewrite <- (N2Nat.id d). remember (N.to_nat d) as k eqn:Ek.
  assert (Hk : (k < 16)%nat) by lia. clear H Ek.
  do 16 (destruct k as [|k]; [reflexivity|]). lia.
Qed.

Lemma toHexDigits_app fuel : forall n acc,
  toHexDigits fuel n acc = toHexDigits fuel n "" ++ acc.
Proof.
  induction fuel as [|k IH]; intros n acc; cbn [toHexDigits]; [reflexivity|].
  destruct (n =? 0)%N; [reflexivity|].
  rewrite (IH _ (String _ acc)), (IH _ (String _ "")), string_app_assoc.
  reflexivity.
Qed.

(** Reading the digits written for [n] adds [n] below what was read
    before. *)
Lemma parseHex_toHexDigits fuel : forall n v rest,
  (n < 2 ^ N.of_nat fuel)%N ->
  parseHex_from v (toHexDigits fuel n "" ++ rest)
  = parseHex_from (v * 16 ^ N.of_nat (String.length (toHexDigits fuel n "")) + n)%N
      rest.
Proof.
  induction fuel as [|k IH]; intros n v rest Hn; cbn [toHexDigits].
  - change (2 ^ N.of_nat 0)%N with 1%N in Hn. assert (n = 0%N) as -> by lia.
    rewrite string_app_nil. f_equal. change (String.length "") with 0%nat.
    change (16 ^ N.of_nat 0)%N with 1%N. lia.
  - destruct (N.eqb_spec n 0) as [-> | Hnz].
    + rewrite string_app_nil. f_equal. change (String.length "") with 0%nat.
      change (16 ^ N.of_nat 0)%N with 1%N. lia.
    + rewrite toHexDigits_app, string_app_assoc, string_app_cons, string_app_nil.
      rewrite Nat2N.inj_succ, N.pow_succ_r' in Hn.
      assert (Hdiv : (n / 16 < 2 ^ N.of_nat k)%N).
      { apply N.Div0.div_lt_upper_bound. lia. }
      rewrite (IH _ v _ Hdiv). cbn [parseHex_from].
      rewrite hexValue_hexDigit by (apply N.mod_lt; lia).
      f_equal. rewrite string_length_app. cbn [String.length].
      rewrite Nat.add_1_r, Nat2N.inj_succ, N.pow_succ_r'.
      pose proof (N.div_mod n 16 ltac:(lia)) as Hdm.
      set (d := (16 ^ N.of_nat (String.length (toHexDigits k (n / 16) "")))%N) in *.
      lia.
Qed.

(** [n] below [16 ^ k] is written with at most [k] digits. *)
Lemma toHexDigits_length fuel : forall n k,
  (n < 16 ^ N.of_nat k)%N -> (String.length (toHexDigits fuel n "") <= k)%nat.
Proof.
  induction fuel as [|f IH]; intros n k Hn; cbn [toHexDigits].
  - cbn [String.length]. lia.
  - destruct (N.eqb_spec n 0) as [-> | Hnz]; [cbn [String.length]; lia|].
    destruct k as [|k]; [change (16 ^ N.of_nat 0)%N with 1%N in Hn; lia|].
    rewrite toHexDigits_app, string_length_app. cbn [String.length].
    rewrite Nat2N.inj_succ, N.pow_succ_r' in Hn.
    assert (Hdiv : (n / 16 < 16 ^ N.of_nat k)%N).
    { apply N.Div0.div_lt_upper_bound. lia. }
    specialize (IH _ _ Hdiv). lia.
Qed.

Lemma size_nat_bound p : (Npos p < 2 ^ N.of_nat (Pos.size_nat p))%N.
Proof.
  induction p as [p IH|p IH|]; cbn [Pos.size_nat];
    rewrite ?Nat2N.inj_succ, ?N.pow_succ_r'; lia.
Qed.

Lemma parseHex_zeros k s :
  parseHex_from 0 (replicate_char k "0" ++ s) = parseHex_from 0 s.
Proof.
  induction k as [|k IH]; [reflexivity|].
  cbn [replicate_char]. rewrite string_app_cons. exact IH.
Qed.

Lemma replicate_char_length k c : String.length (replicate_char k c) = k.
Proof. induction k as [|k IH]; cbn [replicate_char String.length]; congruence. Qed.

End HexStrings.

(** X15: for a colour value from 0 up to 0xffffff the swatch background
    is ["#"] followed by exactly six hexadecimal digits that read back as
    the value: [toString(16)] gives at most six digits and [padStart]
    fills in the leading zeros. *)
Theorem swatch_colour_is_six_hex_digits (color : ColorOption) :
  (0 <= color_value color < 0x1000000)%Z ->
  String.length (colorItem_backgroundColor color) = 7%nat /\
  parseColor (colorItem_backgroundColor color) = Some (Z.to_N (color_value color)).
Proof.
  intros Hv. unfold colorItem_backgroundColor, parseColor, padStart.
  set (digits := toString16 (color_value color)).
  assert (Hd : (1 <= String.length digits <= 6)%nat /\
               parseHex_from 0 digits = Some (Z.to_N (color_value color))).
  { subst digits. destruct (color_value color) as [|p|p]; [split; [cbn; lia|reflexivity]| |lia].
    unfold toString16. change (N.size_nat (N.pos p)) with (Pos.size_nat p).
    split.
    - split.
      + destruct (Pos.size_nat p) eqn:E; [destruct p; discriminate|].
        cbn [toHexDigits]. change (N.pos p =? 0)%N with false. cbv iota.
        rewrite toHexDigits_app, string_length_app. cbn [String.length]. lia.
      + apply (toHexDigits_length _ (N.pos p) 6).
        change (16 ^ N.of_nat 6)%N with 16777216%N. lia.
    - pose proof (parseHex_toHexDigits (Pos.size_nat p) (N.pos p) 0 EmptyString
                    (size_nat_bound p)) as H.
      replace (toHexDigits (Pos.size_nat p) (N.pos p) "" ++ "")%string
        with (toHexDigits (Pos.size_nat p) (N.pos p) "") in H
        by (now rewrite <- toHexDigits_app).
      rewrite H. cbn [parseHex_from Z.to_N]. f_equal; lia. }
  destruct Hd as [Hlen Hparse]. split.
  - cbn [String.length]. rewrite string_length_app, replicate_char_length. lia.
  - rewrite parseHex_zeros. exact Hparse.
Qed.

Lemma swatch_colour_is_six_hex_digits_witness :
  String.length (colorItem_backgroundColor (mkColorOption "Black" 0x000000)) = 7%nat /\
  parseColor (colorItem_backgroundColor (mkColorOption "Black" 0x000000))
  = Some (Z.to_N 0).
Proof.
  apply (swatch_colour_is_six_hex_digits (mkColorOption "Black" 0x000000)).
  cbn. lia.
Defined.
